(** * run_schnetpack: the sacred training script of schnetpack

    A shallow embedding of [src/sacred_scripts/run_schnetpack.py]: the
    property-map pipeline (loss composition, statistics resolution,
    atomic references), the split sizes, the model directory and the
    configuration snapshot, with the properties the specification states
    about them. *)

From Stdlib Require Import ZArith QArith Floats.
From Stdlib Require Uint63.
From stdpp Require Import gmap strings list fin_maps.

Local Open Scope string_scope.
Local Open Scope list_scope.
Local Open Scope Z_scope.

(** ** Python results: a value or a raised exception *)

Inductive exn : Type :=
| KeyError (key : string)
| ValueError (msg : string)
| TypeError
| OverflowError
| OSError (errno : Z)
| FileNotFoundError
| FileExistsError
| NotADirectoryError
| IsADirectoryError.

Inductive Result (A : Type) : Type :=
| Ok (a : A)
| Raise (e : exn).
Arguments Ok {A} a.
Arguments Raise {A} e.

#[global] Instance Result_ret : MRet Result := @Ok.
#[global] Instance Result_bind : MBind Result := fun A B f r =>
  match r with
  | Ok a => f a
  | Raise e => Raise e
  end.

Definition is_Ok {A} (r : Result A) : Prop := exists a, r = Ok a.

(** [[f(x) for x in xs]] where [f] may raise: left to right, the first
    exception wins. *)
Fixpoint for_each {A B} (f : A -> Result B) (xs : list A) : Result (list B) :=
  match xs with
  | [] => Ok []
  | x :: xs' => y ← f x; ys ← for_each f xs'; Ok (y :: ys)
  end.

(** A Python dict used as a plain map; [d[k]] raises [KeyError] on a
    missing key. *)
Definition getitem {V} (d : gmap string V) (k : string) : Result V :=
  match d !! k with
  | Some v => Ok v
  | None => Raise (KeyError k)
  end.

(** ** Property names *)

(** Modelled from the spec: [schnetpack.property_model.Properties] is not
    part of the sources; the names the script compares against are the
    string identifiers the specification gives to the properties. *)
Module Properties.
Definition energy : string := "energy".
Definition forces : string := "forces".
Definition dipole_moment : string := "dipole_moment".
Definition polarizability : string := "polarizability".
End Properties.

(** line 20: [is_extensive] *)
Definition is_extensive (prop : string) : bool :=
  bool_decide (prop = Properties.energy).

(** ** The property map

    A dict from property name to target column, the target being [None]
    when the property has no target.  [items()] order matters to [stats],
    so the map is kept as its list of items; a Python dict has each key
    once ([dict_keys_unique]). *)
Abbreviation target := (option string) (only parsing).
Abbreviation property_map := (list (string * target)) (only parsing).

Definition dict_keys_unique (pm : property_map) : Prop := NoDup pm.*1.

(** [property_map[p]] *)
Fixpoint pm_getitem (pm : property_map) (p : string) : Result target :=
  match pm with
  | [] => Raise (KeyError p)
  | (q, tgt) :: pm' => if decide (q = p) then Ok tgt else pm_getitem pm' p
  end.

(** [[p for p, tgt in property_map.items() if tgt is not None]]
    (lines 96 and 168) *)
Definition target_props (pm : property_map) : list string :=
  (filter (fun it : string * target => is_Some it.2) pm).*1.

(** ** Loss composition (lines 136-149) *)

(** Tensors and the scalars a reduction yields, with the torch operations
    the loss uses. *)
Class Torch (tensor scalar : Type) : Type := {
  tsub : tensor -> tensor -> tensor;      (* a - b *)
  tsquare : tensor -> tensor;             (* a ** 2 *)
  tmean : tensor -> scalar;               (* torch.mean(a) *)
  smul : scalar -> scalar -> scalar;      (* a *= w *)
  sadd : scalar -> scalar -> scalar;      (* a += b *)
  szero : scalar;                         (* 0. *)
  sone : scalar                           (* 1 *)
}.

Section Loss.
Context `{torch : Torch tensor scalar}.

(** The body of the [for] loop of [loss_fn], on the running [loss]. *)
Definition loss_step (loss_tradeoff : gmap string scalar)
    (batch result : gmap string tensor)
    (loss : scalar) (item : string * target) : Result scalar :=
  let '(p, tgt) := item in
  match tgt with
  | Some tgt =>
      y ← getitem batch tgt;
      y_hat ← getitem result p;
      let diff := tsub y y_hat in
      let diff := tsquare diff in
      let err_sq := tmean diff in
      let err_sq :=
        match loss_tradeoff !! p with      (* if p in loss_tradeoff.keys() *)
        | Some w => smul err_sq w
        | None => err_sq
        end in
      Ok (sadd loss err_sq)
  | None => Ok loss
  end.

Fixpoint loss_loop (loss_tradeoff : gmap string scalar)
    (batch result : gmap string tensor)
    (items : list (string * target)) (loss : scalar) : Result scalar :=
  match items with
  | [] => Ok loss
  | item :: items' =>
      loss' ← loss_step loss_tradeoff batch result loss item;
      loss_loop loss_tradeoff batch result items' loss'
  end.

(** lines 138-148: [loss = 0.], the loop over [property_map.items()],
    [return loss]. *)
Definition loss_fn (pm : property_map) (loss_tradeoff : gmap string scalar)
    (batch result : gmap string tensor) : Result scalar :=
  loss_loop loss_tradeoff batch result pm szero.

(** lines 136-149: [build_loss] returns the closure [loss_fn]. *)
Definition build_loss (pm : property_map) (loss_tradeoff : gmap string scalar)
    : gmap string tensor -> gmap string tensor -> Result scalar :=
  loss_fn pm loss_tradeoff.

(** *** The specification's reading of the loss *)

(** The properties that contribute: those whose target is not null, each
    with its target. *)
Definition loss_selection (pm : property_map) : list (string * string) :=
  omap (fun it : string * target => pair it.1 <$> it.2) pm.

Definition mean_squared_error (y y_hat : tensor) : scalar :=
  tmean (tsquare (tsub y y_hat)).

(** The tradeoff weight when the property is a key of the table, 1
    otherwise. *)
Definition tradeoff_weight (loss_tradeoff : gmap string scalar) (p : string)
    : scalar :=
  default sone (loss_tradeoff !! p).

Definition weighted_term (loss_tradeoff : gmap string scalar)
    (batch result : gmap string tensor) (sel : string * string)
    : Result scalar :=
  y ← getitem batch sel.2;
  y_hat ← getitem result sel.1;
  Ok (smul (mean_squared_error y y_hat) (tradeoff_weight loss_tradeoff sel.1)).

(** The sum, from zero and in [items()] order, of the weighted terms. *)
Definition weighted_mse_sum (pm : property_map)
    (loss_tradeoff : gmap string scalar)
    (batch result : gmap string tensor) : Result scalar :=
  terms ← for_each (weighted_term loss_tradeoff batch result)
                   (loss_selection pm);
  Ok (foldl sadd szero terms).

End Loss.

(** ** Numbers of the configuration and split sizes (lines 73-76)

    [num_train] and [num_val] are Python numbers: an [int] or a [float]
    (binary64, the kernel's [float]). *)
Inductive pynum : Type :=
| PyInt (z : Z)
| PyFloat (f : float).

(** [x < 1] *)
Definition py_lt_1 (x : pynum) : bool :=
  match x with
  | PyInt z => z <? 1
  | PyFloat f => PrimFloat.ltb f 1%float
  end.

(** [1 <= x] *)
Definition py_ge_1 (x : pynum) : bool :=
  match x with
  | PyInt z => 1 <=? z
  | PyFloat f => PrimFloat.leb 1%float f
  end.

(** [float(n)] for a length: [len()] is at most [sys.maxsize = 2^63 - 1],
    where the conversion is the correctly rounded one of [of_uint63]. *)
Definition float_of_len (n : Z) : float :=
  PrimFloat.of_uint63 (Uint63.of_Z n).

(** [x * len(data)] *)
Definition py_mul_len (x : pynum) (n : Z) : pynum :=
  match x with
  | PyInt z => PyInt (z * n)
  | PyFloat f => PyFloat (PrimFloat.mul f (float_of_len n))
  end.

(** The integer a finite binary float is cut to, toward zero. *)
Definition SFtruncate (x : spec_float) : Result Z :=
  match x with
  | S754_zero _ => Ok 0
  | S754_infinity _ => Raise OverflowError
  | S754_nan => Raise (ValueError "cannot convert float NaN to integer")
  | S754_finite s m e =>
      let a := if 0 <=? e then Z.pos m * 2 ^ e else Z.pos m / 2 ^ (- e) in
      Ok (if s then - a else a)
  end.

(** The greatest integer below a finite binary float. *)
Definition SFfloor (x : spec_float) : Result Z :=
  match x with
  | S754_zero _ => Ok 0
  | S754_infinity _ => Raise OverflowError
  | S754_nan => Raise (ValueError "cannot convert float NaN to integer")
  | S754_finite s m e =>
      let n := if s then Z.neg m else Z.pos m in
      Ok (if 0 <=? e then n * 2 ^ e else n / 2 ^ (- e))
  end.

(** [int(x)] *)
Definition py_int (x : pynum) : Result Z :=
  match x with
  | PyInt z => Ok z
  | PyFloat f => SFtruncate (Prim2SF f)
  end.

(** [math.floor(x)] *)
Definition py_floor (x : pynum) : Result Z :=
  match x with
  | PyInt z => Ok z
  | PyFloat f => SFfloor (Prim2SF f)
  end.

(** [x] is zero or positive (a NaN is neither). *)
Definition py_nonneg (x : pynum) : bool :=
  match x with
  | PyInt z => 0 <=? z
  | PyFloat f => PrimFloat.leb 0%float f
  end.

(** Lines 73-76, for [num_train] and for [num_val] alike:
    [if num < 1: num = int(num * len(data))]. *)
Definition split_size (num : pynum) (len_data : Z) : Result pynum :=
  if py_lt_1 num
  then n ← py_int (py_mul_len num len_data); Ok (PyInt n)
  else Ok num.

(** The specification's reading: a fraction when below 1, the product
    rounded down; an absolute count otherwise. *)
Definition split_size_rounded_down (num : pynum) (len_data : Z)
    : Result pynum :=
  if py_lt_1 num
  then n ← py_floor (py_mul_len num len_data); Ok (PyInt n)
  else Ok num.

(** ** The configuration (lines 24-41, 52-55) and the world of a run *)

Abbreviation path := (list string) (only parsing).

(** [os.path.join(d, name)] for a single component. *)
Definition os_path_join (d : path) (name : string) : path := d ++ [name].

Record Config (scalar stat : Type) : Type := mkConfig {
  loss_tradeoff : gmap string scalar;
  overwrite : bool;
  additional_outputs : list string;
  modeldir : option path;
  batch_size : Z;
  num_train : pynum;
  num_val : pynum;
  num_workers : Z;
  mean : option (gmap string stat);
  stddev : option (gmap string stat);
  device : string;
  mongo_url : option string;
  mongo_db : option string;
  use_properties : list string;
  properties : list string
}.
Arguments mkConfig {scalar stat}.
Arguments loss_tradeoff {scalar stat} _.
Arguments overwrite {scalar stat} _.
Arguments additional_outputs {scalar stat} _.
Arguments modeldir {scalar stat} _.
Arguments batch_size {scalar stat} _.
Arguments num_train {scalar stat} _.
Arguments num_val {scalar stat} _.
Arguments num_workers {scalar stat} _.
Arguments mean {scalar stat} _.
Arguments stddev {scalar stat} _.
Arguments device {scalar stat} _.
Arguments mongo_url {scalar stat} _.
Arguments mongo_db {scalar stat} _.
Arguments use_properties {scalar stat} _.
Arguments properties {scalar stat} _.

(** [_config["mean"] = v] and [_config["stddev"] = v] on the run's
    configuration, which every captured function shares. *)
Definition set_mean {scalar stat} (v : option (gmap string stat))
    (c : Config scalar stat) : Config scalar stat :=
  mkConfig (loss_tradeoff c) (overwrite c) (additional_outputs c) (modeldir c)
    (batch_size c) (num_train c) (num_val c) (num_workers c)
    v (stddev c)
    (device c) (mongo_url c) (mongo_db c) (use_properties c) (properties c).

Definition set_stddev {scalar stat} (v : option (gmap string stat))
    (c : Config scalar stat) : Config scalar stat :=
  mkConfig (loss_tradeoff c) (overwrite c) (additional_outputs c) (modeldir c)
    (batch_size c) (num_train c) (num_val c) (num_workers c)
    (mean c) v
    (device c) (mongo_url c) (mongo_db c) (use_properties c) (properties c).

(** What a file holds: a dumped configuration, or anything else. *)
Inductive content (scalar stat : Type) : Type :=
| Yaml (cfg : Config scalar stat)
| Blob (data : string).
Arguments Yaml {scalar stat} cfg.
Arguments Blob {scalar stat} data.

(** The file system, flat: every existing path with what is there, paths
    being lists of components below the working directory [[]].  Links
    and permissions are left out. *)
Inductive node (C : Type) : Type :=
| Dir
| File (c : C).
Arguments Dir {C}.
Arguments File {C} c.

Definition is_dir {C} (o : option (node C)) : bool :=
  match o with Some Dir => true | _ => false end.
Definition is_file {C} (o : option (node C)) : bool :=
  match o with Some (File _) => true | _ => false end.

(** The directories above a path, the base directory [[]] first. *)
Definition proper_prefixes (p : path) : list path :=
  (fun n => take n p) <$> seq 0 (length p).

(** Whatever exists lies in directories. *)
Definition fs_well_formed {C} (fs : gmap path (node C)) : Prop :=
  map_Forall (fun q _ =>
    Forall (fun q' => is_dir (fs !! q') = true) (proper_prefixes q)) fs.

(** What the script itself does to the outside, in order. *)
Inductive event (C : Type) : Type :=
| LogInfo (msg : string)
| RmTree (p : path)
| MakeDirs (p : path)
| FileWrite (p : path) (c : C).
Arguments LogInfo {C} msg.
Arguments RmTree {C} p.
Arguments MakeDirs {C} p.
Arguments FileWrite {C} p c.

Record World (scalar stat : Type) : Type := mkWorld {
  w_config : Config scalar stat;
  w_fs : gmap path (node (content scalar stat));
  w_trace : list (event (content scalar stat))
}.
Arguments mkWorld {scalar stat}.
Arguments w_config {scalar stat} _.
Arguments w_fs {scalar stat} _.
Arguments w_trace {scalar stat} _.

(** ** The libraries the script drives

    [dataset_ingredients], [model_ingredients], [trainer_ingredients] and
    [schnetpack.data] are outside the sources: their operations are taken
    as given, each free to raise.  [AtomsLoader] takes the split, the
    batch size, the shuffle flag and the number of workers
    ([pin_memory] is always true); [build_model] takes the device its
    result is moved to as its last argument; [trainer_train] is
    [trainer.train(device)], which works in the file system. *)
Class Schnetpack (tensor scalar : Type) : Type := {
  dataset : Type;
  subset : Type;
  loader : Type;
  atomref : Type;
  stat : Type;
  model : Type;
  trainer : Type;
  get_property_map : list string -> Result property_map;
  get_dataset : list target -> Result dataset;
  len : dataset -> Z;
  create_splits :
    dataset -> pynum -> pynum -> Result (subset * subset * subset);
  AtomsLoader : subset -> Z -> bool -> Z -> loader;
  get_atomref : dataset -> string -> atomref;
  get_statistics :
    loader -> list target -> list bool -> list atomref ->
    Result (list stat * list stat);
  build_model :
    option (gmap string stat) -> option (gmap string stat) ->
    gmap string atomref -> list string -> list string -> string ->
    Result model;
  setup_trainer :
    model -> (gmap string tensor -> gmap string tensor -> Result scalar) ->
    option path -> loader -> loader -> property_map -> Result trainer;
  trainer_train :
    trainer -> string -> gmap path (node (content scalar stat)) ->
    gmap path (node (content scalar stat)) * Result unit
}.

(** ** The script *)
Section Script.
Context `{torch : Torch tensor scalar} `{lib : !Schnetpack tensor scalar}.

Abbreviation Cfg := (Config scalar stat).
Abbreviation FS := (gmap path (node (content scalar stat))).
Abbreviation W := (World scalar stat).

(** Commands of the script: they read and change the world, and return
    or raise. *)
Definition M (A : Type) : Type := W -> W * Result A.

#[global] Instance M_ret : MRet M := fun A a w => (w, Ok a).
#[global] Instance M_bind : MBind M := fun A B f m w =>
  match m w with
  | (w', Ok a) => f a w'
  | (w', Raise e) => (w', Raise e)
  end.

Definition raise {A} (e : exn) : M A := fun w => (w, Raise e).
Definition lift {A} (r : Result A) : M A := fun w => (w, r).

Definition get_config : M Cfg := fun w => (w, Ok (w_config w)).
Definition modify_config (f : Cfg -> Cfg) : M unit := fun w =>
  (mkWorld (f (w_config w)) (w_fs w) (w_trace w), Ok tt).
Definition emit (ev : event (content scalar stat)) : M unit := fun w =>
  (mkWorld (w_config w) (w_fs w) (w_trace w ++ [ev]), Ok tt).
Definition get_fs : M FS := fun w => (w, Ok (w_fs w)).
Definition put_fs (fs : FS) : M unit := fun w =>
  (mkWorld (w_config w) fs (w_trace w), Ok tt).

(** [_log.info(msg)] *)
Definition log_info (msg : string) : M unit := emit (LogInfo msg).

(** [os.path.exists(p)] *)
Definition os_path_exists (p : path) : M bool :=
  fs ← get_fs; mret (bool_decide (is_Some (fs !! p))).

(** What is left when the tree at [p] is gone. *)
Definition remove_tree (p : path) (fs : FS) : FS :=
  filter (fun kv => ¬ p `prefix_of` kv.1) fs.

(** What is left when all that lies below [p] is gone and [p] itself
    stays. *)
Definition remove_below (p : path) (fs : FS) : FS :=
  filter (fun kv => ¬ (p `prefix_of` kv.1 ∧ kv.1 ≠ p)) fs.

(** [shutil.rmtree(p)].  The working directory [[]] cannot be removed:
    its contents are deleted, then the removal of the directory itself
    fails with [OSError(22)]. *)
Definition rmtree (p : path) : M unit :=
  fs ← get_fs;
  match fs !! p with
  | Some Dir =>
      if bool_decide (p = [])
      then put_fs (remove_below p fs);; emit (RmTree p);; raise (OSError 22)
      else put_fs (remove_tree p fs);; emit (RmTree p)
  | Some (File _) => raise NotADirectoryError
  | None => raise FileNotFoundError
  end.


(** [p] and every missing directory above it, made. *)
Definition make_dirs (p : path) (fs : FS) : FS :=
  foldr (fun q m => <[q := Dir]> m) fs (p :: proper_prefixes p).

(** [os.makedirs(p)] *)
Definition os_makedirs (p : path) : M unit :=
  fs ← get_fs;
  if bool_decide (is_Some (fs !! p)) then raise FileExistsError
  else if existsb (fun q => is_file (fs !! q)) (proper_prefixes p)
  then raise NotADirectoryError
  else put_fs (make_dirs p fs);; emit (MakeDirs p).

(** [with open(p, 'w') as f: yaml.dump(c, f)] *)
Definition dump_to (p : path) (c : content scalar stat) : M unit :=
  fs ← get_fs;
  match fs !! removelast p with
  | Some Dir =>
      if is_dir (fs !! p) then raise IsADirectoryError
      else put_fs (<[p := File c]> fs);; emit (FileWrite p c)
  | Some (File _) => raise NotADirectoryError
  | None => raise FileNotFoundError
  end.

(** lines 58-61 *)
Definition save_config : M unit :=
  _config ← get_config;
  match modeldir _config with
  | Some d => dump_to (os_path_join d "config.yaml") (Yaml _config)
  | None => raise TypeError
  end.

(** lines 119-133 *)
Definition create_modeldir : M unit :=
  log_info "Create model directory";;
  _config ← get_config;
  match modeldir _config with
  | None => raise (ValueError "Config `modeldir` has to be set!")
  | Some d =>
      ex ← os_path_exists d;
      if ex && negb (overwrite _config)
      then raise (ValueError
                    "Model directory already exists (set overwrite flag?):")
      else
        ex ← os_path_exists d;
        (if ex && overwrite _config then rmtree d else mret tt);;
        ex ← os_path_exists d;
        if negb ex then os_makedirs d else mret tt
  end.

(** lines 87-89:
    [{p: data.get_atomref(tgt) for p, tgt in property_map.items()
      if tgt is not None}] *)
Definition atomrefs_of (data : dataset) (pm : property_map)
    : gmap string atomref :=
  foldl (fun d (it : string * target) =>
           match it.2 with
           | Some tgt => <[it.1 := get_atomref data tgt]> d
           | None => d
           end) ∅ pm.

(** lines 64-91; the seeding of numpy's generator has no part in what is
    returned here. *)
Definition prepare_data (pm : property_map)
    (batch_size : Z) (num_train num_val : pynum) (num_workers : Z)
    : Result (loader * loader * loader * gmap string atomref) :=
  data ← get_dataset pm.*2;
  num_train ← split_size num_train (len data);
  num_val ← split_size num_val (len data);
  '(train, val, test) ← create_splits data num_train num_val;
  let train_loader := AtomsLoader train batch_size true num_workers in
  let val_loader := AtomsLoader val batch_size false num_workers in
  let test_loader := AtomsLoader test batch_size false num_workers in
  let atomrefs := atomrefs_of data pm in
  Ok (train_loader, val_loader, test_loader, atomrefs).

(** [dict(pairs)]: a later pair replaces an earlier one of the same key. *)
Definition dict {V} (pairs : list (string * V)) : gmap string V :=
  foldl (fun d kv => <[kv.1 := kv.2]> d) ∅ pairs.

(** lines 97-103: the three lists [stats] hands to [get_statistics], each
    over [p in props if p not in [polarizability, dipole_moment]]. *)
Definition stats_targets (pm : property_map) : Result (list target) :=
  for_each (pm_getitem pm)
    (filter (fun p => p ∉ [Properties.polarizability;
                            Properties.dipole_moment]) (target_props pm)).

Definition stats_atomrefs (atomrefs : gmap string atomref)
    (pm : property_map) : Result (list atomref) :=
  for_each (getitem atomrefs)
    (filter (fun p => p ∉ [Properties.polarizability;
                            Properties.dipole_moment]) (target_props pm)).

Definition stats_extensive (pm : property_map) : list bool :=
  is_extensive <$>
    filter (fun p => p ∉ [Properties.polarizability;
                           Properties.dipole_moment]) (target_props pm).

(** The specification's reading of the filtered set: the properties with
    a non-null target that are neither of the two excluded ones. *)
Definition statistics_selection (pm : property_map) : list string :=
  filter (fun p => p ≠ Properties.polarizability
                   ∧ p ≠ Properties.dipole_moment) (target_props pm).

(** lines 94-116 *)
Definition stats (train_loader : loader) (atomrefs : gmap string atomref)
    (pm : property_map)
    : M (option (gmap string stat) * option (gmap string stat)) :=
  _config ← get_config;
  let mean_arg := mean _config in
  let stddev_arg := stddev _config in
  let props := target_props pm in
  targets ← lift (stats_targets pm);
  atomrefs ← lift (stats_atomrefs atomrefs pm);
  let extensive := stats_extensive pm in
  (if bool_decide (0 < length targets)%nat
   then
     if bool_decide (mean_arg = None ∨ stddev_arg = None)
     then
       '(mean_l, stddev_l) ←
         lift (get_statistics train_loader targets extensive atomrefs);
       modify_config (set_mean (Some (dict (zip props mean_l))));;
       modify_config (set_stddev (Some (dict (zip props stddev_l))))
     else mret tt
   else
     modify_config (set_mean (Some ∅));;
     modify_config (set_stddev (Some ∅)));;
  _config ← get_config;
  mret (mean _config, stddev _config).

(** The trainer works in the file system. *)
Definition run_trainer (t : trainer) (device : string) : M unit := fun w =>
  let '(fs, r) := trainer_train t device (w_fs w) in
  (mkWorld (w_config w) fs (w_trace w), r).

(** lines 152-179 *)
Definition train : M unit :=
  cfg ← get_config;
  property_map ← lift (get_property_map (properties cfg));
  create_modeldir;;
  save_config;;
  log_info "Load data";;
  '(train_loader, val_loader, _, atomrefs) ←
    lift (prepare_data property_map (batch_size cfg) (num_train cfg)
            (num_val cfg) (num_workers cfg));
  '(mean, stddev) ← stats train_loader atomrefs property_map;
  log_info "Build model";;
  let model_properties := target_props property_map in
  model ← lift (build_model mean stddev atomrefs model_properties
                  (additional_outputs cfg) (device cfg));
  log_info "Setup training";;
  let loss_fn := build_loss property_map (loss_tradeoff cfg) in
  trainer ← lift (setup_trainer model loss_fn (modeldir cfg)
                    train_loader val_loader property_map);
  log_info "Training";;
  run_trainer trainer (device cfg).

(** The files the script wrote, in order, as a trace records them. *)
Definition file_writes (tr : list (event (content scalar stat)))
    : list (path * content scalar stat) :=
  omap (fun ev => match ev with
                  | FileWrite p c => Some (p, c)
                  | _ => None
                  end) tr.

(** The specification's reading of the snapshot, for a run of [train] from
    [w] to [w']: [config.yaml] in the model directory holds the mean and
    stddev that the statistics resolved to, as the configuration has them
    at the end. *)
Definition snapshot_includes_resolved_statistics (w w' : W) : Prop :=
  exists d snapshot,
    modeldir (w_config w) = Some d
    ∧ w_fs w' !! os_path_join d "config.yaml" = Some (File (Yaml snapshot))
    ∧ mean snapshot = mean (w_config w')
    ∧ stddev snapshot = stddev (w_config w').

(** A command that writes no file: whatever it does and however it ends,
    the files written so far are the same. *)
Definition writes_nothing {A} (m : M A) : Prop :=
  forall w w' r, m w = (w', r) -> file_writes (w_trace w') = file_writes (w_trace w).


(** Two configurations that differ at most in mean and stddev. *)
Definition same_options (c c' : Cfg) : Prop :=
  c' = set_stddev (stddev c') (set_mean (mean c') c).

(** A command that leaves every option but mean and stddev as it is. *)
Definition keeps_options {A} (m : M A) : Prop :=
  forall w w' r, m w = (w', r) -> same_options (w_config w) (w_config w').

End Script.

(** * A run on a small data set

    A toy stand-in of the libraries: ten molecules, targets named after
    the property, statistics that name the target they were computed
    from; tensors are lists of rationals. *)
Module Example.

Definition qsum (t : list Q) : Q := foldl Qplus 0%Q t.

#[global] Instance torch_Q : Torch (list Q) Q := {|
  tsub := zip_with Qminus;
  tsquare := fmap (fun x => Qmult x x);
  tmean := fun t => Qdiv (qsum t) (inject_Z (Z.of_nat (length t)));
  smul := Qmult;
  sadd := Qplus;
  szero := 0%Q;
  sone := 1%Q
|}.

Definition qm9_target (p : string) : target :=
  if decide (p = Properties.forces) then None else Some ("qm9_" +:+ p).

#[global] Instance toy_schnetpack : Schnetpack (list Q) Q := {|
  dataset := Z;
  subset := pynum;
  loader := pynum;
  atomref := string;
  stat := string;
  model := unit;
  trainer := unit;
  get_property_map := fun props => Ok ((fun p => (p, qm9_target p)) <$> props);
  get_dataset := fun _ => Ok 10;
  len := fun data => data;
  create_splits := fun _ n_train n_val => Ok (n_train, n_val, PyInt 0);
  AtomsLoader := fun s _ _ _ => s;
  get_atomref := fun _ tgt => "atomref of " +:+ tgt;
  get_statistics := fun _ targets _ _ =>
    Ok ((fun t => "mean of " +:+ default "None" t) <$> targets,
        (fun t => "stddev of " +:+ default "None" t) <$> targets);
  build_model := fun _ _ _ _ _ _ => Ok tt;
  setup_trainer := fun _ _ _ _ _ _ => Ok tt;
  trainer_train := fun _ _ fs => (fs, Ok tt)
|}.

Abbreviation toy_stat := (@stat _ _ toy_schnetpack) (only parsing).

(** The configuration of [cfg] with a model directory and two
    properties, the dipole moment first. *)
Definition config0 : Config Q toy_stat := {|
  loss_tradeoff := ∅;
  overwrite := true;
  additional_outputs := [];
  modeldir := Some ["models"; "debug"];
  batch_size := 100;
  num_train := PyFloat 0.75;
  num_val := PyFloat 0.125;
  num_workers := 2;
  mean := None;
  stddev := None;
  device := "cpu";
  mongo_url := None;
  mongo_db := None;
  use_properties := [];
  properties := [Properties.dipole_moment; Properties.energy]
|}.

(** An earlier run left its directory and a checkpoint. *)
Definition fs0 : gmap path (node (content Q toy_stat)) :=
  <[ ["models"; "debug"; "checkpoint"] := File (Blob "weights") ]>
  (<[ ["models"; "debug"] := Dir ]>
  (<[ ["models"] := Dir ]>
  (<[ [] := Dir ]> ∅))).

Definition world0 : World Q toy_stat := mkWorld config0 fs0 [].

(** The same, not to be overwritten. *)
Definition world_keep : World Q toy_stat :=
  mkWorld
    (mkConfig ∅ false [] (Some ["models"; "debug"]) 100 (PyFloat 0.75)
       (PyFloat 0.125) 2 None None "cpu" None None [] [Properties.energy])
    fs0 [].

Definition pm0 : property_map :=
  [(Properties.dipole_moment, Some "qm9_dipole_moment");
   (Properties.forces, None);
   (Properties.energy, Some "qm9_energy")].

Definition batch0 : gmap string (list Q) :=
  <["qm9_dipole_moment" := [1; 3]%Q]> (<["qm9_energy" := [2; 4]%Q]> ∅).
Definition result0 : gmap string (list Q) :=
  <[Properties.dipole_moment := [0; 1]%Q]>
  (<[Properties.energy := [2; 2]%Q]> ∅).
Definition tradeoff0 : gmap string Q := <[Properties.energy := 3%Q]> ∅.

Definition data0 : @dataset _ _ toy_schnetpack := 10.
Definition train_loader0 : @loader _ _ toy_schnetpack := PyInt 7.

End Example.

(** * More small runs *)
Module Cases.
Import Example.

Definition config_with (dir : option path) (ov : bool)
    (m s : option (gmap string toy_stat)) : Config Q toy_stat :=
  mkConfig ∅ ov [] dir 100 (PyFloat 0.75) (PyFloat 0.125) 2 m s "cpu"
    None None [] [Properties.dipole_moment; Properties.energy].

(** No model directory configured. *)
Definition world_unset : World Q toy_stat :=
  mkWorld (config_with None true None None) fs0 [].

(** A model directory that is not there yet, two levels down. *)
Definition world_new : World Q toy_stat :=
  mkWorld (config_with (Some ["runs"; "first"]) false None None) fs0 [].

(** The checkpoint file of the earlier run named as model directory. *)
Definition world_file : World Q toy_stat :=
  mkWorld (config_with (Some ["models"; "debug"; "checkpoint"]) true
             None None) fs0 [].

(** Mean and stddev given in the configuration. *)
Definition world_supplied : World Q toy_stat :=
  mkWorld (config_with (Some ["models"; "debug"]) true
             (Some (<[Properties.energy := "0.0"]> ∅))
             (Some (<[Properties.energy := "1.0"]> ∅))) fs0 [].

(** Only excluded properties have a target. *)
Definition pm_excluded : property_map :=
  [(Properties.dipole_moment, Some "qm9_dipole_moment");
   (Properties.forces, None);
   (Properties.polarizability, Some "qm9_polarizability")].

(** Forces and energy both with a target, and atomrefs for the forces
    only. *)
Definition pm_two : property_map :=
  [(Properties.forces, Some "qm9_forces");
   (Properties.energy, Some "qm9_energy")].
Definition atomrefs_forces : gmap string (@atomref _ _ toy_schnetpack) :=
  <[Properties.forces := "atomref of qm9_forces"]> ∅.


(** A batch without the energies. *)
Definition batch_no_energy : gmap string (list Q) :=
  <["qm9_dipole_moment" := [1; 3]%Q]> ∅.

(** A weight for the forces, which have no target. *)
Definition tradeoff_forces : gmap string Q :=
  <[Properties.forces := 7%Q]> tradeoff0.

(** The toy library again, with a [get_property_map] that refuses names
    it does not know. *)
Definition strict_schnetpack : Schnetpack (list Q) Q := {|
  dataset := Z;
  subset := pynum;
  loader := pynum;
  atomref := string;
  stat := string;
  model := unit;
  trainer := unit;
  get_property_map := fun props =>
    if bool_decide (props ⊆ [Properties.energy; Properties.forces;
                             Properties.dipole_moment;
                             Properties.polarizability])
    then Ok ((fun p => (p, qm9_target p)) <$> props)
    else Raise (ValueError "unknown property");
  get_dataset := fun _ => Ok 10;
  len := fun data => data;
  create_splits := fun _ n_train n_val => Ok (n_train, n_val, PyInt 0);
  AtomsLoader := fun s _ _ _ => s;
  get_atomref := fun _ tgt => "atomref of " +:+ tgt;
  get_statistics := fun _ targets _ _ =>
    Ok ((fun t => "mean of " +:+ default "None" t) <$> targets,
        (fun t => "stddev of " +:+ default "None" t) <$> targets);
  build_model := fun _ _ _ _ _ _ => Ok tt;
  setup_trainer := fun _ _ _ _ _ _ => Ok tt;
  trainer_train := fun _ _ fs => (fs, Ok tt)
|}.

Definition world_strict : World Q (@stat _ _ strict_schnetpack) :=
  mkWorld
    (mkConfig ∅ true [] (Some ["models"; "debug"]) 100 (PyFloat 0.75)
       (PyFloat 0.125) 2 None None "cpu" None None [] ["charge"])
    (<[ [] := Dir ]> ∅) [].

End Cases.

(** * Properties *)

(** ** Loss composition *)
Section LossFacts.
Context `{torch : Torch tensor scalar}.
Implicit Types (pm : property_map) (loss_tradeoff : gmap string scalar).
Implicit Types (batch result : gmap string tensor).

Lemma loss_selection_cons_Some p tgt pm :
  loss_selection ((p, Some tgt) :: pm) = (p, tgt) :: loss_selection pm.
Proof. reflexivity. Qed.

Lemma loss_selection_cons_None p pm :
  loss_selection ((p, None) :: pm) = loss_selection pm.
Proof. reflexivity. Qed.

Lemma elem_of_loss_selection pm p tgt :
  (p, tgt) ∈ loss_selection pm <-> (p, Some tgt) ∈ pm.
Proof.
  unfold loss_selection. rewrite list_elem_of_omap. split.
  - intros [[q [t|]] [Hin Heq]]; simpl in Heq; [|discriminate].
    by injection Heq as -> ->.
  - intros Hin. by exists (p, Some tgt).
Qed.

Lemma loss_selection_fst pm : (loss_selection pm).*1 = target_props pm.
Proof.
  unfold target_props.
  induction pm as [|[p [tgt|]] pm IH]; [done|..].
  - rewrite loss_selection_cons_Some, filter_cons.
    case_decide as Hsome; simpl in Hsome.
    + simpl. by f_equal.
    + destruct Hsome. by eexists.
  - rewrite loss_selection_cons_None, filter_cons.
    case_decide as Hsome; simpl in Hsome; [|done].
    by destruct Hsome.
Qed.

(** One pass of the loop adds the weighted term of the property, the
    weight defaulting to one. *)
Lemma loss_step_weighted_term loss_tradeoff batch result loss p tgt :
  (forall x : scalar, smul x sone = x) ->
  loss_step loss_tradeoff batch result loss (p, Some tgt) =
    t ← weighted_term loss_tradeoff batch result (p, tgt); Ok (sadd loss t).
Proof.
  intros Hone. unfold loss_step, weighted_term, tradeoff_weight,
    mean_squared_error. simpl.
  destruct (getitem batch tgt) as [y|e]; simpl; [|done].
  destruct (getitem result p) as [y_hat|e]; simpl; [|done].
  destruct (loss_tradeoff !! p) as [w|]; simpl; [done|].
  by rewrite Hone.
Qed.

(** The loop, from any running loss. *)
Lemma loss_loop_weighted_sum loss_tradeoff batch result pm loss :
  (forall x : scalar, smul x sone = x) ->
  loss_loop loss_tradeoff batch result pm loss =
    terms ← for_each (weighted_term loss_tradeoff batch result)
                     (loss_selection pm);
    Ok (foldl sadd loss terms).
Proof.
  intros Hone. revert loss.
  induction pm as [|[p [tgt|]] pm IH]; intros loss.
  - reflexivity.
  - rewrite loss_selection_cons_Some.
    cbn [loss_loop for_each].
    rewrite loss_step_weighted_term by done.
    destruct (weighted_term loss_tradeoff batch result (p, tgt)) as [t|e];
      simpl; [|done].
    rewrite IH.
    by destruct (for_each _ (loss_selection pm)).
  - rewrite loss_selection_cons_None. cbn [loss_loop loss_step].
    simpl. apply IH.
Qed.

(** When the batch holds every selected target and the result every
    selected property, each term is there. *)
Lemma weighted_term_Ok loss_tradeoff batch result p tgt :
  is_Some (batch !! tgt) -> is_Some (result !! p) ->
  is_Ok (weighted_term loss_tradeoff batch result (p, tgt)).
Proof.
  intros [y Hy] [y_hat Hyh]. unfold weighted_term, getitem. simpl.
  rewrite Hy, Hyh. by eexists.
Qed.

Lemma for_each_weighted_term_Ok loss_tradeoff batch result
    (sel : list (string * string)) :
  Forall (fun s => is_Some (batch !! s.2) ∧ is_Some (result !! s.1)) sel ->
  is_Ok (for_each (weighted_term loss_tradeoff batch result) sel).
Proof.
  induction 1 as [|[p tgt] sel [Hy Hyh] _ [ts IH]].
  - by exists [].
  - cbn [for_each].
    destruct (weighted_term_Ok loss_tradeoff batch result p tgt Hy Hyh)
      as [t ->].
    rewrite IH. by eexists.
Qed.

(** C1: the function [build_loss] returns evaluates, on any batch and
    result, to the sum over exactly the properties with a non-null target
    of the mean squared error between target and prediction, times the
    tradeoff weight of the property when it is a key of [loss_tradeoff] and
    times 1 otherwise (1 being neutral for the product); with the tensors
    of the selected properties at hand, that sum is what is returned. *)
Theorem build_loss_weighted_mse_sum pm loss_tradeoff batch result :
  (forall x : scalar, smul x sone = x) ->
  build_loss pm loss_tradeoff batch result =
    weighted_mse_sum pm loss_tradeoff batch result
  ∧ (Forall (fun s => is_Some (batch !! s.2) ∧ is_Some (result !! s.1))
       (loss_selection pm) ->
     is_Ok (build_loss pm loss_tradeoff batch result)).
Proof.
  intros Hone.
  assert (build_loss pm loss_tradeoff batch result =
          weighted_mse_sum pm loss_tradeoff batch result) as Heq
    by (by apply loss_loop_weighted_sum).
  split; [done|].
  intros Hall. rewrite Heq. unfold weighted_mse_sum.
  destruct (for_each_weighted_term_Ok loss_tradeoff _ _ _ Hall) as [ts ->].
  simpl. by eexists.
Qed.

Lemma loss_loop_no_target loss_tradeoff batch result pm loss :
  Forall (fun it : string * target => it.2 = None) pm ->
  loss_loop loss_tradeoff batch result pm loss = Ok loss.
Proof.
  induction 1 as [|[p tgt] pm Hnone _ IH]; [done|].
  simpl in Hnone. subst tgt. cbn [loss_loop loss_step]. simpl. apply IH.
Qed.

(** C9: when no property of the map has a non-null target (the empty map
    included), the loss function returns zero on every batch and result. *)
Theorem build_loss_no_target_zero pm loss_tradeoff batch result :
  Forall (fun it : string * target => it.2 = None) pm ->
  build_loss pm loss_tradeoff batch result = Ok szero.
Proof. apply loss_loop_no_target. Qed.

End LossFacts.

(** ** Dicts and the property map *)
Section DictFacts.
Implicit Types (pm : property_map) (p : string).

Lemma elem_of_target_props pm p :
  p ∈ target_props pm <-> exists tgt, (p, Some tgt) ∈ pm.
Proof.
  unfold target_props. rewrite list_elem_of_fmap. split.
  - intros [[q o] [-> [[tgt Heq] Hin]%list_elem_of_filter]].
    simpl in *. subst o. by exists tgt.
  - intros [tgt Hin]. exists (p, Some tgt). split; [done|].
    apply list_elem_of_filter. split; [by eexists|done].
Qed.

Lemma target_props_NoDup pm : dict_keys_unique pm -> NoDup (target_props pm).
Proof.
  unfold dict_keys_unique, target_props.
  induction pm as [|[q o] pm IH]; [constructor|].
  rewrite fmap_cons, NoDup_cons. intros [Hq Hnd].
  rewrite filter_cons. case_decide; [|by apply IH].
  rewrite fmap_cons. apply NoDup_cons. split; [|by apply IH].
  intros [[q' o'] [Heq [_ Hin]%list_elem_of_filter]]%list_elem_of_fmap.
  simpl in Heq. subst q'. apply Hq, list_elem_of_fmap. by exists (q, o').
Qed.

(** In a dict, [property_map[p]] is the value [items()] pairs with [p]. *)
Lemma pm_getitem_elem_of pm p o :
  dict_keys_unique pm -> (p, o) ∈ pm -> pm_getitem pm p = Ok o.
Proof.
  unfold dict_keys_unique.
  induction pm as [|[q o'] pm IH]; [by intros _ ?%elem_of_nil|].
  rewrite fmap_cons, NoDup_cons. intros [Hq Hnd] Hin. simpl.
  apply elem_of_cons in Hin as [[= <- <-]|Hin].
  - by rewrite decide_True.
  - rewrite decide_False; [by apply IH|].
    intros ->. apply Hq, list_elem_of_fmap. by exists (p, o).
Qed.

Lemma for_each_Ok_fmap {A B} (f : A -> Result B) (g : A -> B) (xs : list A) :
  (forall x, x ∈ xs -> f x = Ok (g x)) -> for_each f xs = Ok (g <$> xs).
Proof.
  induction xs as [|x xs IH]; intros Hf; [done|].
  cbn [for_each]. rewrite Hf by apply list_elem_of_here. simpl.
  rewrite IH; [done|]. intros y Hy. apply Hf. by apply list_elem_of_further.
Qed.

Lemma for_each_Ok_length {A B} (f : A -> Result B) (xs : list A) ys :
  for_each f xs = Ok ys -> length ys = length xs.
Proof.
  revert ys. induction xs as [|x xs IH]; intros ys; simpl.
  - by intros [= <-].
  - destruct (f x); simpl; [|done].
    destruct (for_each f xs) as [ys'|]; simpl; [|done].
    intros [= <-]. simpl. f_equal. by apply IH.
Qed.

Lemma dict_list_to_map {V} (pairs : list (string * V)) :
  dict pairs = list_to_map (reverse pairs).
Proof.
  unfold dict. rewrite <- (reverse_involutive pairs) at 1.
  generalize (reverse pairs) as l. intros l.
  induction l as [|kv l IH]; [done|].
  rewrite reverse_cons, foldl_app. simpl. by rewrite IH.
Qed.

Lemma dom_dict {V} (pairs : list (string * V)) :
  dom (dict pairs) = list_to_set pairs.*1.
Proof.
  rewrite dict_list_to_map, dom_list_to_map_L, fmap_reverse.
  apply set_eq. intros k. rewrite !elem_of_list_to_set. apply elem_of_reverse.
Qed.

Lemma dict_lookup_NoDup {V} (pairs : list (string * V)) k v :
  NoDup pairs.*1 -> (k, v) ∈ pairs -> dict pairs !! k = Some v.
Proof.
  intros Hnd Hin. rewrite dict_list_to_map.
  apply elem_of_list_to_map.
  - by rewrite fmap_reverse, reverse_Permutation.
  - by apply elem_of_reverse.
Qed.

Lemma zip_fst_take {A B} (ks : list A) (vs : list B) :
  (zip ks vs).*1 = take (length vs) ks.
Proof.
  revert vs. induction ks as [|k ks IH]; intros [|v vs]; simpl; try done.
  by rewrite IH.
Qed.

(** [dict(zip(keys, values))] pairs by position, up to the shorter list. *)
Lemma dict_zip_lookup {V} (ks : list string) (vs : list V) i k :
  NoDup ks -> ks !! i = Some k -> (i < length vs)%nat ->
  dict (zip ks vs) !! k = vs !! i.
Proof.
  intros Hnd Hk Hi.
  destruct (lookup_lt_is_Some_2 vs i Hi) as [v Hv]. rewrite Hv.
  apply dict_lookup_NoDup.
  - rewrite zip_fst_take. eapply sublist_NoDup; [done|apply sublist_take].
  - apply list_elem_of_lookup. exists i.
    by apply lookup_zip_with_Some; exists k, v.
Qed.

Lemma dom_dict_zip {V} (ks : list string) (vs : list V) :
  dom (dict (zip ks vs)) = list_to_set (take (length vs) ks).
Proof. by rewrite dom_dict, zip_fst_take. Qed.

End DictFacts.

(** ** Statistics resolution and the selection sets *)
Section StatsFacts.
Context `{torch : Torch tensor scalar} `{lib : !Schnetpack tensor scalar}.
Implicit Types (pm : property_map) (p : string).
Implicit Types (atomrefs : gmap string atomref).

(** The test [p not in [polarizability, dipole_moment]] of the three
    comprehensions selects what the specification describes. *)
Lemma stats_filter_selection pm :
  filter (fun p => p ∉ [Properties.polarizability; Properties.dipole_moment])
    (target_props pm) = statistics_selection pm.
Proof.
  apply list_filter_iff. intros p.
  rewrite !not_elem_of_cons. pose proof (not_elem_of_nil p). tauto.
Qed.

Lemma elem_of_statistics_selection pm p :
  p ∈ statistics_selection pm <->
  p ∈ target_props pm
  ∧ p ≠ Properties.polarizability ∧ p ≠ Properties.dipole_moment.
Proof. unfold statistics_selection. rewrite list_elem_of_filter. tauto. Qed.

Lemma excluded_not_selected pm p :
  p ∈ [Properties.polarizability; Properties.dipole_moment] ->
  p ∉ statistics_selection pm.
Proof.
  rewrite elem_of_statistics_selection.
  intros [->|[->|[]%elem_of_nil]%elem_of_cons]%elem_of_cons; tauto.
Qed.

(** C3: whatever the property map and the atomrefs mapping, the properties
    behind the three lists [stats] builds (targets, atomrefs, extensivity
    flags) are one filtered selection, which holds neither polarizability
    nor the dipole moment, whether or not these have a non-null target. *)
Theorem stats_filtered_set_excludes pm atomrefs :
  stats_targets pm = for_each (pm_getitem pm) (statistics_selection pm)
  ∧ stats_atomrefs atomrefs pm =
      for_each (getitem atomrefs) (statistics_selection pm)
  ∧ stats_extensive pm = is_extensive <$> statistics_selection pm
  ∧ (Properties.polarizability ∉ statistics_selection pm)
  ∧ (Properties.dipole_moment ∉ statistics_selection pm)
  ∧ (forall p, p ∈ statistics_selection pm ->
       p ∈ target_props pm
       ∧ p ∉ [Properties.polarizability; Properties.dipole_moment]).
Proof.
  unfold stats_targets, stats_atomrefs, stats_extensive.
  rewrite stats_filter_selection. repeat split.
  - apply excluded_not_selected. set_solver.
  - apply excluded_not_selected. set_solver.
  - by apply elem_of_statistics_selection.
  - intros Hex. by apply (excluded_not_selected pm p).
Qed.

(** C4: the extensivity flag of a property is true exactly when the
    property is the energy; in the flags [stats] assigns, position by
    position over the selection, a flag is true exactly where the energy
    stands. *)
Theorem extensive_iff_energy :
  (forall p, is_extensive p = true <-> p = Properties.energy)
  ∧ (forall p, is_extensive p = false <-> p ≠ Properties.energy)
  ∧ (forall pm,
       length (stats_extensive pm) = length (statistics_selection pm))
  ∧ (forall pm (i : nat),
       stats_extensive pm !! i = Some true <->
       statistics_selection pm !! i = Some Properties.energy).
Proof.
  assert (forall p, is_extensive p = true <-> p = Properties.energy) as Htrue.
  { intros p. unfold is_extensive. apply bool_decide_eq_true. }
  split; [done|]. split; [|split].
  - intros p. unfold is_extensive. apply bool_decide_eq_false.
  - intros pm. unfold stats_extensive.
    by rewrite stats_filter_selection, length_fmap.
  - intros pm i. unfold stats_extensive.
    rewrite stats_filter_selection, list_lookup_fmap.
    destruct (statistics_selection pm !! i) as [p|]; simpl; [|done].
    split.
    + intros [= Hp]. f_equal. by apply Htrue.
    + intros [= ->]. done.
Qed.

(** Under unique keys the targets of the selection are all found. *)
Lemma stats_targets_Ok pm :
  dict_keys_unique pm ->
  exists ts, stats_targets pm = Ok ts
             ∧ length ts = length (statistics_selection pm)
             ∧ Forall is_Some ts.
Proof.
  intros Hnd. unfold stats_targets. rewrite stats_filter_selection.
  set (g := fun p => match pm_getitem pm p with Ok o => o | Raise _ => None end).
  exists (g <$> statistics_selection pm).
  assert (forall p, p ∈ statistics_selection pm ->
            exists tgt, pm_getitem pm p = Ok (Some tgt)) as Hget.
  { intros p [[tgt Hin]%elem_of_target_props _]%elem_of_statistics_selection.
    exists tgt. by apply pm_getitem_elem_of. }
  split; [|split].
  - apply for_each_Ok_fmap. intros p [tgt Hp]%Hget. unfold g. by rewrite Hp.
  - by rewrite length_fmap.
  - apply Forall_fmap, Forall_forall. intros p [tgt Hp]%Hget.
    simpl. unfold g. rewrite Hp. by eexists.
Qed.

Lemma atomrefs_of_app data pm it :
  atomrefs_of data (pm ++ [it]) =
    match it.2 with
    | Some tgt => <[it.1 := get_atomref data tgt]> (atomrefs_of data pm)
    | None => atomrefs_of data pm
    end.
Proof. unfold atomrefs_of. by rewrite foldl_app. Qed.

(** The keys of the atomrefs mapping are the properties with a target. *)
Lemma dom_atomrefs_of data pm :
  dom (atomrefs_of data pm) = list_to_set (target_props pm).
Proof.
  induction pm as [|[p o] pm IH] using rev_ind; [done|].
  rewrite atomrefs_of_app. unfold target_props in *.
  rewrite filter_app, fmap_app, list_to_set_app_L, <- IH.
  rewrite filter_cons, filter_nil. simpl.
  destruct o as [tgt|]; case_decide as Hs; simpl in Hs.
  - rewrite dom_insert_L. simpl.
    by rewrite union_empty_r_L, (comm_L (∪)).
  - destruct Hs. by eexists.
  - by destruct Hs.
  - simpl. by rewrite union_empty_r_L.
Qed.

Lemma atomrefs_of_lookup data pm p tgt :
  dict_keys_unique pm -> (p, Some tgt) ∈ pm ->
  atomrefs_of data pm !! p = Some (get_atomref data tgt).
Proof.
  unfold dict_keys_unique.
  induction pm as [|[q o] pm IH] using rev_ind; [by intros _ ?%elem_of_nil|].
  rewrite fmap_app, NoDup_app. intros (Hnd & Hdisj & _).
  rewrite atomrefs_of_app. simpl.
  intros [Hin|[= <- <-]%list_elem_of_singleton]%elem_of_app.
  - assert (q ≠ p) as Hne.
    { intros ->. apply (Hdisj p); [|set_solver].
      apply list_elem_of_fmap. by exists (p, Some tgt). }
    destruct o; [rewrite lookup_insert_ne by done|]; by apply IH.
  - by rewrite lookup_insert_eq.
Qed.

(** What [prepare_data] returns as atomrefs is the comprehension over the
    data set it loaded. *)
Lemma prepare_data_atomrefs pm batch_size num_train num_val num_workers
    loaders atomrefs :
  prepare_data pm batch_size num_train num_val num_workers
    = Ok (loaders, atomrefs) ->
  exists data, get_dataset pm.*2 = Ok data ∧ atomrefs = atomrefs_of data pm.
Proof.
  unfold prepare_data.
  destruct (get_dataset pm.*2) as [data|]; simpl; [|done].
  destruct (split_size num_train (len data)); simpl; [|done].
  destruct (split_size num_val (len data)); simpl; [|done].
  destruct (create_splits data _ _) as [[[tr va] te]|]; simpl; [|done].
  intros [= _ <-]. by exists data.
Qed.

(** C5: a property with a non-null target that is one of the two excluded
    from the statistics still has its term in the loss and its entry in
    the atomrefs mapping of [prepare_data]; the loss and the atomrefs
    select exactly the properties with a non-null target, the statistics
    select those of them that are not excluded. *)
Theorem excluded_property_in_loss_and_atomrefs
    pm (loss_tradeoff : gmap string scalar) (batch result : gmap string tensor)
    (data : dataset) p tgt :
  (forall x : scalar, smul x sone = x) ->
  dict_keys_unique pm ->
  (p, Some tgt) ∈ pm ->
  p ∈ [Properties.polarizability; Properties.dipole_moment] ->
  (build_loss pm loss_tradeoff batch result =
     terms ← for_each (weighted_term loss_tradeoff batch result)
                      (loss_selection pm);
     Ok (foldl sadd szero terms))
  ∧ (p, tgt) ∈ loss_selection pm
  ∧ atomrefs_of data pm !! p = Some (get_atomref data tgt)
  ∧ (p ∉ statistics_selection pm)
  ∧ (loss_selection pm).*1 = target_props pm
  ∧ dom (atomrefs_of data pm) = list_to_set (target_props pm)
  ∧ statistics_selection pm =
      filter (fun q => q ∉ [Properties.polarizability;
                             Properties.dipole_moment]) (target_props pm)
  ∧ (forall batch_size num_train num_val num_workers loaders atomrefs,
       prepare_data pm batch_size num_train num_val num_workers
         = Ok (loaders, atomrefs) ->
       is_Some (atomrefs !! p)
       ∧ dom atomrefs = list_to_set (target_props pm)).
Proof.
  intros Hone Hnd Hin Hex.
  split; [by apply loss_loop_weighted_sum|].
  split; [by apply elem_of_loss_selection|].
  split; [by apply atomrefs_of_lookup|].
  split; [by apply excluded_not_selected|].
  split; [apply loss_selection_fst|].
  split; [apply dom_atomrefs_of|].
  split; [symmetry; apply stats_filter_selection|].
  intros bs nt nv nw loaders atomrefs
    (data' & _ & ->)%prepare_data_atomrefs.
  split; [|apply dom_atomrefs_of].
  erewrite atomrefs_of_lookup by done. by eexists.
Qed.

End StatsFacts.

Section StatsRun.
Context `{torch : Torch tensor scalar} `{lib : !Schnetpack tensor scalar}.
Implicit Types (pm : property_map) (p : string).
Implicit Types (atomrefs : gmap string atomref) (w : World scalar stat).

(** What [stats] does when it computes: the two dicts go to the
    configuration and come back as the result. *)
Lemma stats_computed (train_loader : loader) atomrefs pm w ts ars
    mean_l stddev_l :
  mean (w_config w) = None ∨ stddev (w_config w) = None ->
  stats_targets pm = Ok ts ->
  ts ≠ [] ->
  stats_atomrefs atomrefs pm = Ok ars ->
  get_statistics train_loader ts (stats_extensive pm) ars
    = Ok (mean_l, stddev_l) ->
  let m := dict (zip (target_props pm) mean_l) in
  let s := dict (zip (target_props pm) stddev_l) in
  stats train_loader atomrefs pm w =
    (mkWorld (set_stddev (Some s) (set_mean (Some m) (w_config w)))
       (w_fs w) (w_trace w),
     Ok (Some m, Some s)).
Proof.
  intros Hcfg Hts Hne Hars Hgs m s.
  unfold stats, mbind, M_bind, lift, get_config, modify_config. simpl.
  rewrite Hts, Hars. simpl.
  rewrite bool_decide_eq_true_2 by (destruct ts; [done|simpl; lia]).
  rewrite bool_decide_eq_true_2 by done.
  rewrite Hgs. reflexivity.
Qed.

(** C6: when [stats] computes the statistics (mean or stddev not supplied)
    for a map with at least one target-bearing property outside the
    exclusion set, the resolved mean and stddev are the dicts of the zip of
    the unfiltered property list with the statistics of the filtered list:
    the zip stops at the shorter list, so the keys are the prefix of the
    unfiltered list as long as the filtered one (a proper prefix once an
    excluded property has a target), the i-th unfiltered name is paired
    with the i-th computed statistic, and an excluded name standing in
    that prefix becomes a key, which the filtered set never holds. *)
Theorem stats_zips_unfiltered_props (train_loader : loader) atomrefs pm w
    ts ars mean_l stddev_l :
  dict_keys_unique pm ->
  mean (w_config w) = None ∨ stddev (w_config w) = None ->
  statistics_selection pm ≠ [] ->
  stats_targets pm = Ok ts ->
  stats_atomrefs atomrefs pm = Ok ars ->
  get_statistics train_loader ts (stats_extensive pm) ars
    = Ok (mean_l, stddev_l) ->
  length mean_l = length (statistics_selection pm) ->
  length stddev_l = length (statistics_selection pm) ->
  let props := target_props pm in
  let n := length (statistics_selection pm) in
  let m := dict (zip props mean_l) in
  let s := dict (zip props stddev_l) in
  stats train_loader atomrefs pm w =
    (mkWorld (set_stddev (Some s) (set_mean (Some m) (w_config w)))
       (w_fs w) (w_trace w),
     Ok (Some m, Some s))
  ∧ dom m = list_to_set (take n props)
  ∧ dom s = list_to_set (take n props)
  ∧ (forall (i : nat) p, (i < n)%nat -> props !! i = Some p ->
       m !! p = mean_l !! i ∧ s !! p = stddev_l !! i)
  ∧ ((exists p, p ∈ props
                ∧ p ∈ [Properties.polarizability; Properties.dipole_moment]) ->
     (n < length props)%nat)
  ∧ (forall (i : nat) p, (i < n)%nat -> props !! i = Some p ->
       p ∈ [Properties.polarizability; Properties.dipole_moment] ->
       p ∈ dom m ∧ (p ∉ statistics_selection pm)
       ∧ dom m ≠ list_to_set (statistics_selection pm)).
Proof.
  intros Hnd Hcfg Hne Hts Hars Hgs Hlm Hls props n m s.
  assert (NoDup props) as Hprops by by apply target_props_NoDup.
  assert (dom m = list_to_set (take n props)) as Hdom.
  { unfold m. by rewrite dom_dict_zip, Hlm. }
  assert (forall (i : nat) p, (i < n)%nat -> props !! i = Some p -> p ∈ dom m)
    as Hkey.
  { intros i p Hi Hp. rewrite Hdom, elem_of_list_to_set, elem_of_take.
    by exists i. }
  split; [|split; [done|split; [|split; [|split]]]].
  - apply (stats_computed _ _ _ _ ts ars); try done.
    intros ->. apply Hne.
    apply for_each_Ok_length in Hts. unfold stats_targets in Hts.
    rewrite stats_filter_selection in Hts.
    by apply nil_length_inv.
  - unfold s. by rewrite dom_dict_zip, Hls.
  - intros i p Hi Hp. split; apply dict_zip_lookup; try done; lia.
  - intros (p & Hin & Hex). unfold n, statistics_selection.
    apply (length_filter_lt _ _ p); [done|].
    intros [Hpol Hdip].
    apply elem_of_cons in Hex as [->|Hex]; [done|].
    by apply list_elem_of_singleton in Hex as ->.
  - intros i p Hi Hp Hex.
    pose proof (excluded_not_selected pm p Hex) as Hnot.
    split; [by eapply Hkey|]. split; [done|].
    intros Heq. apply Hnot.
    apply (elem_of_list_to_set (C := gset string)).
    rewrite <- Heq. by eapply Hkey.
Qed.

End StatsRun.

(** ** The model directory *)
Section ModeldirFacts.
Context `{torch : Torch tensor scalar} `{lib : !Schnetpack tensor scalar}.
Implicit Types (d q : path) (w : World scalar stat).
Implicit Types (fs : gmap path (node (content scalar stat))).

Lemma remove_tree_lookup d fs q :
  remove_tree d fs !! q = if decide (d `prefix_of` q) then None else fs !! q.
Proof.
  unfold remove_tree. case_decide as Hpre.
  - apply map_lookup_filter_None. right. intros x _ Hnot. by apply Hnot.
  - destruct (fs !! q) as [x|] eqn:Hq.
    + by apply map_lookup_filter_Some.
    + apply map_lookup_filter_None. by left.
Qed.

Lemma elem_of_proper_prefixes d q :
  q ∈ proper_prefixes d <-> exists n : nat, (n < length d)%nat ∧ q = take n d.
Proof.
  unfold proper_prefixes. rewrite list_elem_of_fmap. split.
  - intros (n & -> & Hn%elem_of_seq). exists n. split; [lia|done].
  - intros (n & Hn & ->). exists n. split; [done|]. apply elem_of_seq. lia.
Qed.

(** A directory above [d] is not inside [d]. *)
Lemma proper_prefix_not_below d q :
  q ∈ proper_prefixes d -> ¬ d `prefix_of` q.
Proof.
  intros (n & Hn & ->)%elem_of_proper_prefixes Hpre%prefix_length.
  rewrite length_take in Hpre. lia.
Qed.

Lemma well_formed_ancestors fs d q :
  fs_well_formed fs -> is_Some (fs !! d) -> q ∈ proper_prefixes d ->
  fs !! q = Some Dir.
Proof.
  intros Hwf [x Hd] Hq.
  pose proof (map_Forall_lookup_1 _ _ _ _ Hwf Hd) as Hall. simpl in Hall.
  eapply Forall_forall in Hall; [|done].
  by destruct (fs !! q) as [[|c]|].
Qed.



(** C7: with [overwrite=False] and a model directory that exists,
    [create_modeldir] raises a [ValueError], and the file system (the
    directory and all it holds) is as it was. *)
Theorem create_modeldir_exists_raises w d :
  modeldir (w_config w) = Some d ->
  overwrite (w_config w) = false ->
  is_Some (w_fs w !! d) ->
  exists w',
    create_modeldir w =
      (w', Raise (ValueError
                    "Model directory already exists (set overwrite flag?):"))
    ∧ w_fs w' = w_fs w
    ∧ w_config w' = w_config w
    ∧ w_trace w' = w_trace w ++ [LogInfo "Create model directory"].
Proof.
  intros Hdir Hov Hex. eexists.
  unfold create_modeldir, log_info, emit, get_config, os_path_exists, get_fs,
    raise, mbind, M_bind, mret, M_ret. simpl.
  rewrite Hdir, Hov. simpl.
  rewrite bool_decide_eq_true_2 by done. simpl.
  repeat split.
Qed.






End ModeldirFacts.

(** ** The configuration snapshot *)
Section SnapshotFacts.
Context `{torch : Torch tensor scalar} `{lib : !Schnetpack tensor scalar}.
Implicit Types (w : World scalar stat).

Lemma bind_run {A B} (m : M A) (f : A -> M B) w :
  (m ≫= f) w =
    match m w with
    | (w', Ok a) => f a w'
    | (w', Raise e) => (w', Raise e)
    end.
Proof. reflexivity. Qed.

Lemma file_writes_snoc_other tr (ev : event (content scalar stat)) :
  (forall p c, ev ≠ FileWrite p c) ->
  file_writes (tr ++ [ev]) = file_writes tr.
Proof.
  intros Hev. unfold file_writes. rewrite omap_app. simpl.
  destruct ev; simpl; try by rewrite app_nil_r.
  by destruct (Hev p c).
Qed.

Lemma writes_nothing_bind {A B} (m : M A) (f : A -> M B) :
  writes_nothing m -> (forall a, writes_nothing (f a)) ->
  writes_nothing (m ≫= f).
Proof.
  intros Hm Hf w w' r. rewrite bind_run.
  destruct (m w) as [w1 [a|e]] eqn:Hmw.
  - intros Hfa. rewrite (Hf a _ _ _ Hfa). by eapply Hm.
  - intros [= <- <-]. by eapply Hm.
Qed.

Lemma writes_nothing_ret {A} (a : A) : writes_nothing (mret a).
Proof. by intros w w' r [= <- <-]. Qed.

Lemma writes_nothing_raise {A} e : writes_nothing (raise (A := A) e).
Proof. by intros w w' r [= <- <-]. Qed.

Lemma writes_nothing_lift {A} (x : Result A) : writes_nothing (lift x).
Proof. by intros w w' r [= <- <-]. Qed.

Lemma writes_nothing_get_config : writes_nothing get_config.
Proof. by intros w w' r [= <- <-]. Qed.

Lemma writes_nothing_get_fs : writes_nothing get_fs.
Proof. by intros w w' r [= <- <-]. Qed.

Lemma writes_nothing_put_fs fs : writes_nothing (put_fs fs).
Proof. by intros w w' r [= <- <-]. Qed.

Lemma writes_nothing_modify_config f : writes_nothing (modify_config f).
Proof. by intros w w' r [= <- <-]. Qed.

Lemma writes_nothing_emit ev :
  (forall p c, ev ≠ FileWrite p c) -> writes_nothing (emit ev).
Proof.
  intros Hev w w' r [= <- <-]. simpl. by apply file_writes_snoc_other.
Qed.

Lemma writes_nothing_run_trainer t dev : writes_nothing (run_trainer t dev).
Proof.
  intros w w' r. unfold run_trainer.
  destruct (trainer_train t dev (w_fs w)). by intros [= <- <-].
Qed.

Create HintDb nowrite discriminated.
#[local] Hint Resolve writes_nothing_ret writes_nothing_raise
  writes_nothing_lift writes_nothing_get_config writes_nothing_get_fs
  writes_nothing_put_fs writes_nothing_modify_config
  writes_nothing_run_trainer : nowrite.

Ltac nowrite :=
  repeat first
    [ apply writes_nothing_bind; [|intros ?]
    | apply writes_nothing_emit; intros ? ?; discriminate
    | solve [auto with nowrite]
    | match goal with
      | |- writes_nothing (match ?x with _ => _ end) => destruct x
      | |- writes_nothing (if ?b then _ else _) => destruct b
      | |- writes_nothing (let '(_, _) := ?x in _) => destruct x
      end ].

Lemma writes_nothing_log_info msg : writes_nothing (log_info msg).
Proof. unfold log_info. nowrite. Qed.

Lemma writes_nothing_create_modeldir : writes_nothing create_modeldir.
Proof.
  unfold create_modeldir, os_path_exists, rmtree, os_makedirs, log_info.
  nowrite.
Qed.

Lemma writes_nothing_stats (l : loader) atomrefs pm :
  writes_nothing (stats l atomrefs pm).
Proof. unfold stats. nowrite. Qed.

(** [create_modeldir] leaves the configuration as it is. *)
Lemma create_modeldir_config w w' r :
  create_modeldir w = (w', r) -> w_config w' = w_config w.
Proof.
  unfold create_modeldir, os_path_exists, rmtree, os_makedirs, log_info,
    emit, get_config, get_fs, put_fs, raise, mbind, M_bind, mret, M_ret.
  simpl.
  repeat (first
    [ match goal with
      | |- context [match ?x with _ => _ end] =>
          match type of x with
          | option _ => destruct x
          | node _ => destruct x
          | bool => destruct x
          end
      end ]; simpl);
  by intros [= <- <-].
Qed.

(** [save_config] writes the configuration of the moment, once, or
    raises and writes nothing. *)
Lemma save_config_run w w' r :
  save_config w = (w', r) ->
  w_config w' = w_config w
  ∧ ((exists d, modeldir (w_config w) = Some d ∧ r = Ok tt
                ∧ file_writes (w_trace w') =
                    file_writes (w_trace w)
                    ++ [(os_path_join d "config.yaml", Yaml (w_config w))]
                ∧ w_fs w' !! os_path_join d "config.yaml"
                    = Some (File (Yaml (w_config w))))
     ∨ ((exists e, r = Raise e) ∧ w' = w)).
Proof.
  unfold save_config, dump_to, emit, get_config, get_fs, put_fs, raise,
    mbind, M_bind, mret, M_ret. simpl.
  destruct (modeldir (w_config w)) as [d|]; simpl.
  - destruct (w_fs w !! removelast (os_path_join d "config.yaml"))
      as [[|c]|]; simpl.
    + destruct (is_dir (w_fs w !! os_path_join d "config.yaml")); simpl.
      * intros [= <- <-]. split; [done|]. right. split; [by eexists|].
        by destruct w.
      * intros [= <- <-]. simpl. split; [done|]. left. exists d.
        repeat split.
        -- unfold file_writes. by rewrite omap_app.
        -- apply lookup_insert_eq.
    + intros [= <- <-]. split; [done|]. right. split; [by eexists|].
      by destruct w.
    + intros [= <- <-]. split; [done|]. right. split; [by eexists|].
      by destruct w.
  - intros [= <- <-]. split; [done|]. right. split; [by eexists|].
    by destruct w.
Qed.

(** C2, as the code has it: in the [train] command the snapshot in
    [config.yaml] of the model directory is written once, at the start of
    the run and before the statistics are resolved; it holds the
    configuration as it is at that moment, so its mean and stddev are the
    configured ones (null when none were supplied), whatever [stats]
    resolves afterwards.  A run that raises before the snapshot writes
    nothing. *)
Theorem train_snapshot_once_at_start w w' r :
  train w = (w', r) ->
  ((exists e, r = Raise e)
   ∧ file_writes (w_trace w') = file_writes (w_trace w))
  ∨ (exists d snapshot,
       modeldir (w_config w) = Some d
       ∧ file_writes (w_trace w') =
           file_writes (w_trace w)
           ++ [(os_path_join d "config.yaml", Yaml snapshot)]
       ∧ snapshot = w_config w
       ∧ mean snapshot = mean (w_config w)
       ∧ stddev snapshot = stddev (w_config w)).
Proof.
  unfold train. rewrite bind_run. simpl. rewrite bind_run.
  unfold lift at 1.
  destruct (get_property_map (properties (w_config w))) as [pm|e]; simpl.
  2: { intros [= <- <-]. left. split; [by eexists|done]. }
  rewrite bind_run.
  destruct (create_modeldir w) as [w1 [[]|e]] eqn:Hcreate.
  2: { intros [= <- <-]. left. split; [by eexists|].
       by eapply writes_nothing_create_modeldir. }
  pose proof (create_modeldir_config _ _ _ Hcreate) as Hcfg.
  pose proof (writes_nothing_create_modeldir _ _ _ Hcreate) as Hw1.
  rewrite bind_run.
  destruct (save_config w1) as [w2 r2] eqn:Hsave.
  destruct (save_config_run _ _ _ Hsave)
    as [_ [(d & Hd & -> & Hw2 & _)|[[e ->] ->]]].
  2: { intros [= <- <-]. left. split; [by eexists|done]. }
  intros Hrest.
  match type of Hrest with
  | ?m w2 = _ => assert (writes_nothing m) as Hnone
  end.
  { unfold prepare_data. pose proof writes_nothing_log_info.
    pose proof writes_nothing_stats. nowrite. }
  apply Hnone in Hrest. right. exists d, (w_config w).
  rewrite <- Hcfg, Hrest, Hw2, Hw1. by rewrite Hcfg in *.
Qed.

End SnapshotFacts.

(** ** Split sizes *)
Section SplitFacts.

Lemma SFcompare_antisym x y c :
  SFcompare x y = Some c -> SFcompare y x = Some (CompOpp c).
Proof.
  destruct x as [sx|sx| |sx mx ex], y as [sy|sy| |sy my ey]; simpl;
    try discriminate; intros [= <-]; try (by destruct sx);
    try (by destruct sy); try (by destruct sx, sy).
  destruct sx, sy; try done; f_equal.
  - rewrite (Z.compare_antisym ex ey).
    destruct (ex ?= ey); simpl; try done.
    f_equal. symmetry. apply (Pos.compare_cont_antisym mx my Eq).
  - rewrite (Z.compare_antisym ex ey).
    destruct (ex ?= ey); simpl; try done.
    symmetry. apply (Pos.compare_cont_antisym mx my Eq).
Qed.

(** A float at least 1 is not below 1. *)
Lemma float_ge_1_not_lt_1 (f : float) :
  PrimFloat.leb 1%float f = true -> PrimFloat.ltb f 1%float = false.
Proof.
  rewrite FloatAxioms.leb_spec, FloatAxioms.ltb_spec. unfold SFleb, SFltb.
  destruct (SFcompare (Prim2SF 1%float) (Prim2SF f)) as [c|] eqn:Hc;
    [|discriminate].
  rewrite (SFcompare_antisym _ _ _ Hc). by destruct c.
Qed.

Lemma py_ge_1_not_lt_1 (x : pynum) : py_ge_1 x = true -> py_lt_1 x = false.
Proof.
  destruct x as [z|f]; simpl.
  - intros Hz%Z.leb_le. apply Z.ltb_ge. lia.
  - apply float_ge_1_not_lt_1.
Qed.

(** On a float that is zero or positive, cutting toward zero is
    rounding down. *)
Lemma float_nonneg_truncate_floor (f : float) :
  PrimFloat.leb 0%float f = true ->
  SFtruncate (Prim2SF f) = SFfloor (Prim2SF f).
Proof.
  rewrite FloatAxioms.leb_spec. unfold SFleb.
  change (Prim2SF 0%float) with (S754_zero false).
  destruct (Prim2SF f) as [s|s| |s m e]; simpl; try done.
  by destruct s.
Qed.

Lemma py_nonneg_int_floor (x : pynum) :
  py_nonneg x = true -> py_int x = py_floor x.
Proof.
  destruct x as [z|f]; simpl; [done|]. apply float_nonneg_truncate_floor.
Qed.

(** C10, as the code has it: [num_train] (and [num_val] alike) is taken
    as a fraction of the data set exactly when it is strictly below 1, the
    product being cut to an integer by [int()], that is toward zero (so
    rounded down when the product is zero or positive); exactly 1 is left
    as it is, a split of one sample, and so is every value from 1 on, an
    absolute count. *)
Theorem split_size_fraction_iff_below_one (num : pynum) (len_data : Z) :
  (py_lt_1 num = true ->
     split_size num len_data =
       n ← py_int (py_mul_len num len_data); Ok (PyInt n))
  ∧ (py_lt_1 num = false -> split_size num len_data = Ok num)
  ∧ (py_ge_1 num = true -> split_size num len_data = Ok num)
  ∧ split_size (PyInt 1) len_data = Ok (PyInt 1)
  ∧ split_size (PyFloat 1%float) len_data = Ok (PyFloat 1%float)
  ∧ (py_nonneg (py_mul_len num len_data) = true ->
     split_size num len_data = split_size_rounded_down num len_data).
Proof.
  unfold split_size, split_size_rounded_down.
  split; [by intros ->|]. split; [by intros ->|].
  split; [by intros ->%py_ge_1_not_lt_1|].
  split; [done|]. split; [done|].
  intros Hpos. destruct (py_lt_1 num); [|done].
  by rewrite py_nonneg_int_floor.
Qed.

End SplitFacts.

(** * The properties on the small run *)
Section Runs.
Import Example.

Lemma Qmult_one_r (x : Q) : smul x sone = x.
Proof.
  destruct x as [n d]. cbn. unfold Qmult. cbn [Qnum Qden].
  by rewrite Z.mul_1_r, Pos.mul_1_r.
Qed.

Ltac by_compute := apply (bool_decide_unpack _); vm_compute; exact I.

(** On the small batch the loss is 5/2 for the dipole moment plus three
    times 2 for the energy. *)
Lemma build_loss_weighted_mse_sum_run :
  build_loss pm0 tradeoff0 batch0 result0
    = weighted_mse_sum pm0 tradeoff0 batch0 result0
  ∧ is_Ok (build_loss pm0 tradeoff0 batch0 result0)
  ∧ build_loss pm0 tradeoff0 batch0 result0 = Ok (34 # 4)%Q.
Proof.
  destruct (build_loss_weighted_mse_sum pm0 tradeoff0 batch0 result0
              Qmult_one_r) as [Heq Hok].
  split; [exact Heq|]. split; [|reflexivity].
  apply Hok. by_compute.
Defined.

Lemma build_loss_no_target_zero_run :
  build_loss [(Properties.forces, None)] tradeoff0 batch0 result0 = Ok 0%Q
  ∧ build_loss [] tradeoff0 batch0 result0 = Ok 0%Q.
Proof.
  split.
  - apply (build_loss_no_target_zero (torch := torch_Q)
             [(Properties.forces, None)]).
    by_compute.
  - apply (build_loss_no_target_zero (torch := torch_Q) []). constructor.
Defined.

(** The dipole moment is in the loss and has its atomref, and is not in
    the statistics. *)
Lemma excluded_property_in_loss_and_atomrefs_run :
  (Properties.dipole_moment, "qm9_dipole_moment") ∈ loss_selection pm0
  ∧ atomrefs_of data0 pm0 !! Properties.dipole_moment
      = Some "atomref of qm9_dipole_moment"
  ∧ (Properties.dipole_moment ∉ statistics_selection pm0)
  ∧ (loss_selection pm0).*1 = target_props pm0
  ∧ dom (atomrefs_of data0 pm0) = list_to_set (target_props pm0).
Proof.
  destruct (excluded_property_in_loss_and_atomrefs pm0 tradeoff0 batch0
              result0 data0 Properties.dipole_moment
              "qm9_dipole_moment" Qmult_one_r)
    as (_ & Hloss & Hat & Hstat & Hsel & Hdom & _); [by_compute..|].
  repeat split; assumption.
Defined.

(** The resolved mean pairs the dipole moment with the mean of the
    energy, and has no entry for the energy. *)
Lemma stats_zips_unfiltered_props_run :
  exists m s w',
    stats train_loader0 (atomrefs_of data0 pm0) pm0 world0
      = (w', Ok (Some m, Some s))
    ∧ mean (w_config w') = Some m
    ∧ dom m = list_to_set [Properties.dipole_moment]
    ∧ m !! Properties.dipole_moment = Some "mean of qm9_energy"
    ∧ s !! Properties.dipole_moment = Some "stddev of qm9_energy"
    ∧ m !! Properties.energy = None
    ∧ statistics_selection pm0 = [Properties.energy].
Proof.
  destruct (stats_zips_unfiltered_props
              train_loader0 (atomrefs_of data0 pm0) pm0 world0
              [Some "qm9_energy"] ["atomref of qm9_energy"]
              ["mean of qm9_energy"] ["stddev of qm9_energy"])
    as (Hrun & Hdom & _ & Hpair & _ & _);
    [by_compute|by left|done|reflexivity..|].
  destruct (Hpair 0%nat Properties.dipole_moment) as [Hm Hs];
    [simpl; lia|reflexivity|].
  eexists _, _, _. split; [exact Hrun|].
  split; [reflexivity|]. split; [exact Hdom|].
  split; [exact Hm|]. split; [exact Hs|]. split; reflexivity.
Defined.

Lemma create_modeldir_exists_raises_run :
  exists w',
    create_modeldir world_keep =
      (w', Raise (ValueError
                    "Model directory already exists (set overwrite flag?):"))
    ∧ w_fs w' = fs0.
Proof.
  destruct (create_modeldir_exists_raises world_keep ["models"; "debug"])
    as (w' & Hrun & Hfs & _); [reflexivity|reflexivity|by_compute|].
  exists w'. split; [exact Hrun|exact Hfs].
Defined.


(** The one file the run writes is the configuration it started with. *)
Lemma train_snapshot_once_at_start_run :
  (train world0).2 = Ok tt
  ∧ file_writes (w_trace (train world0).1) =
      [(["models"; "debug"; "config.yaml"], Yaml config0)]
  ∧ mean config0 = None.
Proof.
  destruct (train_snapshot_once_at_start world0
              (train world0).1 (train world0).2
              (surjective_pairing (train world0)))
    as [[[e He] _]|(d & snapshot & Hd & Hw & -> & _)].
  - vm_compute in He. discriminate He.
  - injection Hd as <-.
    split; [vm_compute; reflexivity|]. split; [exact Hw|reflexivity].
Defined.

(** C2 as stated fails: after the run the configuration holds the
    resolved mean, the snapshot in [config.yaml] a null one. *)
Lemma train_snapshot_lacks_resolved_statistics :
  ¬ snapshot_includes_resolved_statistics world0 (train world0).1.
Proof.
  intros (d & snapshot & Hd & Hfile & Hmean & _).
  injection Hd as <-.
  assert (w_fs (train world0).1 !! os_path_join ["models"; "debug"]
            "config.yaml" = Some (File (Yaml config0))) as Hthere
    by (vm_compute; reflexivity).
  rewrite Hthere in Hfile. injection Hfile as <-.
  assert (is_Some (mean (w_config (train world0).1))) as [m Hm]
    by by_compute.
  rewrite Hm in Hmean. discriminate Hmean.
Qed.

Lemma split_size_fraction_iff_below_one_run :
  split_size (PyFloat 0.75) 10 = Ok (PyInt 7)
  ∧ split_size (PyInt 500) 10 = Ok (PyInt 500)
  ∧ split_size (PyFloat 0.75) 10 = split_size_rounded_down (PyFloat 0.75) 10.
Proof.
  destruct (split_size_fraction_iff_below_one (PyFloat 0.75) 10)
    as (Hfrac & _ & _ & _ & _ & Hdown).
  destruct (split_size_fraction_iff_below_one (PyInt 500) 10)
    as (_ & _ & Hcount & _).
  split; [rewrite Hfrac; reflexivity|].
  split; [apply Hcount; reflexivity|apply Hdown; reflexivity].
Defined.

(** C10 as stated fails: [int()] cuts toward zero, so half of three
    samples taken away is -1, where rounding down gives -2. *)
Lemma split_size_negative_not_rounded_down :
  split_size (PyFloat (-0.5)) 3 = Ok (PyInt (-1))
  ∧ split_size_rounded_down (PyFloat (-0.5)) 3 = Ok (PyInt (-2))
  ∧ split_size (PyFloat (-0.5)) 3
      ≠ split_size_rounded_down (PyFloat (-0.5)) 3.
Proof. repeat split. discriminate. Qed.

End Runs.

(** * Further properties of the script *)

(** ** The loss function *)
Section LossMore.
Context `{torch : Torch tensor scalar}.
Implicit Types (pm : property_map) (loss_tradeoff : gmap string scalar).
Implicit Types (batch result : gmap string tensor).

Lemma loss_loop_app loss_tradeoff batch result pm1 pm2 loss :
  loss_loop loss_tradeoff batch result (pm1 ++ pm2) loss =
    loss' ← loss_loop loss_tradeoff batch result pm1 loss;
    loss_loop loss_tradeoff batch result pm2 loss'.
Proof.
  revert loss. induction pm1 as [|it pm1 IH]; intros loss; [done|].
  cbn [app loss_loop].
  destruct (loss_step loss_tradeoff batch result loss it); simpl; [|done].
  apply IH.
Qed.

Lemma loss_loop_Ok_iff loss_tradeoff batch result pm loss :
  is_Ok (loss_loop loss_tradeoff batch result pm loss) <->
  Forall (fun s => is_Some (batch !! s.2) ∧ is_Some (result !! s.1))
    (loss_selection pm).
Proof.
  revert loss. induction pm as [|[p [tgt|]] pm IH]; intros loss.
  - split; [constructor|by eexists].
  - rewrite loss_selection_cons_Some, Forall_cons. cbn [loss_loop loss_step].
    unfold getitem. simpl.
    destruct (batch !! tgt) as [y|]; simpl.
    + destruct (result !! p) as [y_hat|]; simpl.
      * rewrite IH. split; [by eauto|by intros [_ ?]].
      * split; [by intros [? ?]|by intros [[_ [? ?]] _]].
    + split; [by intros [? ?]|by intros [[[? ?] _] _]].
  - rewrite loss_selection_cons_None. cbn [loss_loop loss_step]. apply IH.
Qed.

(** The loss function returns exactly when the batch holds the target
    tensor and the result the predicted tensor of every property with a
    target; otherwise a lookup raises. *)
Theorem build_loss_Ok_iff_tensors pm loss_tradeoff batch result :
  is_Ok (build_loss pm loss_tradeoff batch result) <->
  Forall (fun s => is_Some (batch !! s.2) ∧ is_Some (result !! s.1))
    (loss_selection pm).
Proof. apply loss_loop_Ok_iff. Qed.

(** The first tensor that is missing, in [items()] order and the batch
    before the result, is the key of the [KeyError]. *)
Theorem build_loss_first_missing_key pm1 pm2 p tgt
    loss_tradeoff batch result :
  Forall (fun s => is_Some (batch !! s.2) ∧ is_Some (result !! s.1))
    (loss_selection pm1) ->
  batch !! tgt = None ∨ (is_Some (batch !! tgt) ∧ result !! p = None) ->
  build_loss (pm1 ++ (p, Some tgt) :: pm2) loss_tradeoff batch result =
    Raise (KeyError match batch !! tgt with Some _ => p | None => tgt end).
Proof.
  intros [loss Hloss]%(loss_loop_Ok_iff loss_tradeoff _ _ _ szero) Hmiss.
  unfold build_loss, loss_fn. rewrite loss_loop_app, Hloss. simpl.
  unfold getitem.
  destruct Hmiss as [->|[[y ->] Hp]]; simpl; [done|]. by rewrite Hp.
Qed.

Lemma loss_loop_ignores loss_tradeoff loss_tradeoff' batch result pm loss :
  (forall p, p ∈ target_props pm -> loss_tradeoff !! p = loss_tradeoff' !! p) ->
  loss_loop loss_tradeoff batch result pm loss =
    loss_loop loss_tradeoff' batch result
      (filter (fun it : string * option string => is_Some it.2) pm) loss.
Proof.
  revert loss. induction pm as [|[p [tgt|]] pm IH]; intros loss Hagree.
  - done.
  - rewrite filter_cons_True by (simpl; eauto). cbn [loss_loop loss_step].
    rewrite (Hagree p).
    2: { apply elem_of_target_props. exists tgt. apply list_elem_of_here. }
    destruct (getitem batch tgt); simpl; [|done].
    destruct (getitem result p); simpl; [|done].
    apply IH. intros q [t Hq]%elem_of_target_props. apply Hagree.
    apply elem_of_target_props. exists t. by apply list_elem_of_further.
  - rewrite filter_cons_False by (simpl; by intros [? ?]).
    cbn [loss_loop loss_step]. simpl. apply IH.
    intros q [t Hq]%elem_of_target_props. apply Hagree.
    apply elem_of_target_props. exists t. by apply list_elem_of_further.
Qed.

(** Properties without a target and tradeoff weights of properties
    without a target have no part in the loss: dropping the former and
    changing the latter leaves the loss function as it is. *)
Theorem build_loss_ignores_untargeted pm loss_tradeoff loss_tradeoff'
    batch result :
  (forall p, p ∈ target_props pm -> loss_tradeoff !! p = loss_tradeoff' !! p) ->
  build_loss pm loss_tradeoff batch result =
    build_loss (filter (fun it : string * option string => is_Some it.2) pm)
      loss_tradeoff' batch result.
Proof. apply loss_loop_ignores. Qed.

(** One more property with a target, at the end of the map, adds its
    squared error to the loss of the map before it: weighted when the
    property is a key of [loss_tradeoff], as it is otherwise. *)
Theorem build_loss_app_target pm p tgt loss_tradeoff batch result :
  build_loss (pm ++ [(p, Some tgt)]) loss_tradeoff batch result =
    loss ← build_loss pm loss_tradeoff batch result;
    y ← getitem batch tgt;
    y_hat ← getitem result p;
    Ok (sadd loss
          match loss_tradeoff !! p with
          | Some w => smul (mean_squared_error y y_hat) w
          | None => mean_squared_error y y_hat
          end).
Proof.
  unfold build_loss, loss_fn. rewrite loss_loop_app.
  destruct (loss_loop loss_tradeoff batch result pm szero) as [loss|];
    simpl; [|done].
  destruct (getitem batch tgt); simpl; [|done].
  by destruct (getitem result p).
Qed.

End LossMore.

(** ** Statistics resolution *)
Section StatsMore.
Context `{torch : Torch tensor scalar} `{lib : !Schnetpack tensor scalar}.
Implicit Types (pm : property_map) (p : string).
Implicit Types (atomrefs : gmap string atomref) (w : World scalar stat).

(** The three ways a call of [stats] ends: it raises and changes nothing,
    it returns what the configuration holds and changes nothing, or it
    stores two dicts in the configuration and returns them. *)
Lemma stats_outcomes (train_loader : loader) atomrefs pm w w' r :
  stats train_loader atomrefs pm w = (w', r) ->
  (w' = w ∧ exists e, r = Raise e)
  ∨ (w' = w ∧ r = Ok (mean (w_config w), stddev (w_config w)))
  ∨ (exists m s,
       w' = mkWorld (set_stddev (Some s) (set_mean (Some m) (w_config w)))
              (w_fs w) (w_trace w)
       ∧ r = Ok (Some m, Some s)).
Proof.
  unfold stats, mbind, M_bind, lift, get_config, modify_config, mret, M_ret.
  simpl.
  destruct (stats_targets pm) as [ts|e]; simpl.
  2: { intros [= <- <-]. left. eauto. }
  destruct (stats_atomrefs atomrefs pm) as [ars|e]; simpl.
  2: { intros [= <- <-]. left. eauto. }
  case_bool_decide; simpl.
  - case_bool_decide; simpl.
    + destruct (get_statistics _ _ _ _) as [[mean_l stddev_l]|e]; simpl.
      * intros [= <- <-]. right. right. by eexists _, _.
      * intros [= <- <-]. left. eauto.
    + intros [= <- <-]. right. left. by destruct w.
  - intros [= <- <-]. right. right. by eexists _, _.
Qed.

(** [stats] changes nothing but the mean and the stddev of the
    configuration: the file system, the trace and every other option are
    as before, however the call ends. *)
Theorem stats_changes_only_statistics (train_loader : loader) atomrefs pm
    w w' r :
  stats train_loader atomrefs pm w = (w', r) ->
  w_fs w' = w_fs w
  ∧ w_trace w' = w_trace w
  ∧ w_config w' =
      set_stddev (stddev (w_config w'))
        (set_mean (mean (w_config w')) (w_config w)).
Proof.
  intros [[-> _]|[[-> _]|(m & s & -> & _)]]%stats_outcomes; simpl;
    repeat split; by destruct (w_config w).
Qed.

(** With no property left after the filter, the mean and the stddev
    resolve to empty dicts: nothing is looked up, [get_statistics] is not
    asked, and a mean or stddev given in the configuration is replaced. *)
Theorem stats_empty_selection (train_loader : loader) atomrefs pm w :
  statistics_selection pm = [] ->
  stats train_loader atomrefs pm w =
    (mkWorld (set_stddev (Some ∅) (set_mean (Some ∅) (w_config w)))
       (w_fs w) (w_trace w),
     Ok (Some ∅, Some ∅)).
Proof.
  intros Hsel.
  unfold stats, stats_targets, stats_atomrefs.
  rewrite stats_filter_selection, Hsel. reflexivity.
Qed.

Lemma for_each_getitem_Ok {V} (d : gmap string V) (xs : list string) :
  (forall p, p ∈ xs -> is_Some (d !! p)) ->
  exists vs, for_each (getitem d) xs = Ok vs ∧ length vs = length xs.
Proof.
  induction xs as [|p xs IH]; intros Hall; [by exists []|].
  destruct (Hall p) as [a Ha]; [apply list_elem_of_here|].
  destruct IH as (vs & Hvs & Hlen).
  { intros q Hq. apply Hall. by apply list_elem_of_further. }
  assert (getitem d p = Ok a) as Hget by (unfold getitem; by rewrite Ha).
  exists (a :: vs). cbn [for_each].
  rewrite Hget. simpl. rewrite Hvs. simpl. by rewrite Hlen.
Qed.

Lemma stats_atomrefs_Ok atomrefs pm :
  (forall p, p ∈ statistics_selection pm -> is_Some (atomrefs !! p)) ->
  exists ars, stats_atomrefs atomrefs pm = Ok ars
              ∧ length ars = length (statistics_selection pm).
Proof.
  intros Hall. unfold stats_atomrefs. rewrite stats_filter_selection.
  by apply for_each_getitem_Ok.
Qed.

(** With mean and stddev both given in the configuration and at least
    one property selected, [stats] returns the given two and leaves the
    world as it is, whatever [get_statistics] would compute. *)
Theorem stats_returns_supplied (train_loader : loader) atomrefs pm w m s :
  dict_keys_unique pm ->
  statistics_selection pm ≠ [] ->
  (forall p, p ∈ statistics_selection pm -> is_Some (atomrefs !! p)) ->
  mean (w_config w) = Some m ->
  stddev (w_config w) = Some s ->
  stats train_loader atomrefs pm w = (w, Ok (Some m, Some s)).
Proof.
  intros Hnd Hne Hall Hm Hs.
  destruct (stats_targets_Ok pm Hnd) as (ts & Hts & Hlen & _).
  destruct (stats_atomrefs_Ok atomrefs pm Hall) as (ars & Hars & _).
  unfold stats, mbind, M_bind, lift, get_config, mret, M_ret. simpl.
  rewrite Hts, Hars. simpl.
  rewrite bool_decide_eq_true_2.
  2: { rewrite Hlen. destruct (statistics_selection pm); [done|simpl; lia]. }
  rewrite bool_decide_eq_false_2 by (rewrite Hm, Hs; by intros [?|?]).
  simpl. by rewrite Hm, Hs.
Qed.

Lemma for_each_getitem_missing {V} (d : gmap string V) (xs : list string) p :
  p ∈ xs -> d !! p = None ->
  exists xs1 q xs2,
    xs = xs1 ++ q :: xs2
    ∧ Forall (fun x => is_Some (d !! x)) xs1
    ∧ d !! q = None
    ∧ for_each (getitem d) xs = Raise (KeyError q).
Proof.
  induction xs as [|x xs IH]; [by intros ?%elem_of_nil|].
  intros Hin Hp. cbn [for_each].
  destruct (d !! x) as [v|] eqn:Hx.
  - assert (getitem d x = Ok v) as -> by (unfold getitem; by rewrite Hx).
    apply elem_of_cons in Hin as [->|Hin]; [congruence|].
    destruct (IH Hin Hp) as (xs1 & q & xs2 & -> & Hbefore & Hnone & ->).
    exists (x :: xs1), q, xs2. split; [done|]. split; [|done].
    apply Forall_cons. split; [by eexists|done].
  - assert (getitem d x = Raise (KeyError x)) as ->
      by (unfold getitem; by rewrite Hx).
    by exists [], x, xs.
Qed.

(** A selected property without an entry in [atomrefs] makes [stats]
    raise the [KeyError] of the first such property in the order of the
    selection (every selected property before it has its entry), before
    anything is computed or stored. *)
Theorem stats_missing_atomref (train_loader : loader) atomrefs pm w p :
  dict_keys_unique pm ->
  p ∈ statistics_selection pm ->
  atomrefs !! p = None ->
  exists before q after,
    statistics_selection pm = before ++ q :: after
    ∧ Forall (fun p' => is_Some (atomrefs !! p')) before
    ∧ q ∈ statistics_selection pm ∧ atomrefs !! q = None
    ∧ stats train_loader atomrefs pm w = (w, Raise (KeyError q)).
Proof.
  intros Hnd Hin Hp.
  destruct (stats_targets_Ok pm Hnd) as (ts & Hts & _).
  destruct (for_each_getitem_missing atomrefs _ p Hin Hp)
    as (before & q & after & Hsel & Hbefore & Hnone & Hraise).
  exists before, q, after. split; [done|]. split; [done|].
  split; [rewrite Hsel; set_solver|]. split; [done|].
  unfold stats, mbind, M_bind, lift, get_config. simpl.
  rewrite Hts. simpl. unfold stats_atomrefs.
  rewrite stats_filter_selection, Hraise. reflexivity.
Qed.

(** The atomrefs [prepare_data] builds hold every property [stats] looks
    up: on them [stats] raises only what [get_statistics] raises, and
    then leaves the world as it is. *)
Theorem stats_on_prepared_atomrefs (train_loader : loader) (data : dataset)
    pm :
  dict_keys_unique pm ->
  exists ts ars,
    stats_targets pm = Ok ts
    ∧ stats_atomrefs (atomrefs_of data pm) pm = Ok ars
    ∧ length ts = length (statistics_selection pm)
    ∧ length ars = length (statistics_selection pm)
    ∧ (forall w w' e,
         stats train_loader (atomrefs_of data pm) pm w = (w', Raise e) ->
         w' = w
         ∧ get_statistics train_loader ts (stats_extensive pm) ars = Raise e).
Proof.
  intros Hnd.
  destruct (stats_targets_Ok pm Hnd) as (ts & Hts & Hlen & _).
  destruct (stats_atomrefs_Ok (atomrefs_of data pm) pm)
    as (ars & Hars & Hlen').
  { intros p [Hp _]%elem_of_statistics_selection.
    apply elem_of_dom. rewrite dom_atomrefs_of.
    by apply elem_of_list_to_set. }
  exists ts, ars. do 4 (split; [done|]).
  intros w w' e.
  unfold stats, mbind, M_bind, lift, get_config, modify_config, mret, M_ret.
  simpl. rewrite Hts, Hars. simpl.
  case_bool_decide; simpl; [case_bool_decide; simpl|]; try by intros [=].
  destruct (get_statistics _ _ _ _) as [[mean_l stddev_l]|e'] eqn:Hgs; simpl.
  - by intros [=].
  - by intros [= <- <-].
Qed.

End StatsMore.

(** ** The model directory, case by case *)
Section ModeldirMore.
Context `{torch : Torch tensor scalar} `{lib : !Schnetpack tensor scalar}.
Implicit Types (d q : path) (w : World scalar stat).
Implicit Types (fs : gmap path (node (content scalar stat))).

Lemma foldr_insert_dir_lookup (l : list path) fs q :
  foldr (fun q' m => <[q' := Dir]> m) fs l !! q =
    if decide (q ∈ l) then Some Dir else fs !! q.
Proof.
  induction l as [|q' l IH]; cbn [foldr].
  - destruct (decide (q ∈ [])) as [[]%elem_of_nil|]; done.
  - destruct (decide (q' = q)) as [->|Hne].
    + rewrite lookup_insert_eq.
      destruct (decide (q ∈ q :: l)) as [|[]]; [done|apply list_elem_of_here].
    + rewrite lookup_insert_ne, IH by done.
      destruct (decide (q ∈ l)) as [Hin|Hin];
        destruct (decide (q ∈ q' :: l)) as [Hin'|Hin']; try done.
      * destruct Hin'. by apply list_elem_of_further.
      * apply elem_of_cons in Hin' as [->|?]; done.
Qed.

Lemma make_dirs_lookup d fs q :
  make_dirs d fs !! q =
    if decide (q ∈ d :: proper_prefixes d) then Some Dir else fs !! q.
Proof. apply foldr_insert_dir_lookup. Qed.

Lemma proper_prefixes_of_prefix d q q' :
  q ∈ d :: proper_prefixes d -> q' ∈ proper_prefixes q ->
  q' ∈ proper_prefixes d.
Proof.
  intros [->|Hq]%elem_of_cons; [done|].
  apply elem_of_proper_prefixes in Hq as (n & Hn & ->).
  intros (k & Hk & ->)%elem_of_proper_prefixes.
  rewrite length_take in Hk. apply elem_of_proper_prefixes.
  exists k. split; [lia|]. rewrite take_take. f_equal. lia.
Qed.

Lemma make_dirs_well_formed d fs :
  fs_well_formed fs -> fs_well_formed (make_dirs d fs).
Proof.
  intros Hwf. apply map_Forall_lookup_2. intros q x Hq.
  apply Forall_forall. intros q' Hq'.
  rewrite make_dirs_lookup in Hq. rewrite make_dirs_lookup.
  destruct (decide (q' ∈ d :: proper_prefixes d)) as [|Hq'd]; [done|].
  destruct (decide (q ∈ d :: proper_prefixes d)) as [Hqd|Hqd].
  - destruct Hq'd. apply list_elem_of_further.
    by eapply proper_prefixes_of_prefix.
  - erewrite well_formed_ancestors; [done..| |done]. by eexists.
Qed.

Lemma remove_tree_well_formed d fs :
  fs_well_formed fs -> fs_well_formed (remove_tree d fs).
Proof.
  intros Hwf. apply map_Forall_lookup_2. intros q x Hq.
  apply Forall_forall. intros q' Hq'.
  rewrite remove_tree_lookup in Hq. rewrite remove_tree_lookup.
  destruct (decide (d `prefix_of` q)) as [|Hdq]; [done|].
  rewrite decide_False.
  - erewrite well_formed_ancestors; [done..| |done]. by eexists.
  - intros Hpre. apply Hdq. etrans; [done|].
    apply elem_of_proper_prefixes in Hq' as (n & _ & ->). apply prefix_take.
Qed.

Lemma remove_below_lookup d fs q :
  remove_below d fs !! q =
    if decide (d `prefix_of` q ∧ q ≠ d) then None else fs !! q.
Proof.
  unfold remove_below. case_decide as Hbelow.
  - apply map_lookup_filter_None. right. intros x _ Hnot. by apply Hnot.
  - destruct (fs !! q) as [x|] eqn:Hq.
    + by apply map_lookup_filter_Some.
    + apply map_lookup_filter_None. by left.
Qed.

Lemma remove_below_well_formed d fs :
  fs_well_formed fs -> fs_well_formed (remove_below d fs).
Proof.
  intros Hwf. apply map_Forall_lookup_2. intros q x Hq.
  apply Forall_forall. intros q' Hq'.
  rewrite remove_below_lookup in Hq. rewrite remove_below_lookup.
  destruct (decide (d `prefix_of` q ∧ q ≠ d)) as [|Hq_kept]; [done|].
  rewrite decide_False.
  - erewrite well_formed_ancestors; [done..| |done]. by eexists.
  - intros [Hpre Hne].
    assert (q' `prefix_of` q) as Hq'q.
    { apply elem_of_proper_prefixes in Hq' as (n & _ & ->). apply prefix_take. }
    destruct (decide (q = d)) as [->|Hqd].
    + by apply (proper_prefix_not_below d q').
    + apply Hq_kept. split; [by etrans|done].
Qed.

(** Every way [create_modeldir] ends, with the file system and the trace
    it leaves. *)
Lemma create_modeldir_outcomes w w' r :
  create_modeldir w = (w', r) ->
  w_config w' = w_config w
  ∧ match modeldir (w_config w) with
    | None =>
        r = Raise (ValueError "Config `modeldir` has to be set!")
        ∧ w_fs w' = w_fs w
        ∧ w_trace w' = w_trace w ++ [LogInfo "Create model directory"]
    | Some d =>
        match w_fs w !! d with
        | Some x =>
            if overwrite (w_config w) then
              match x with
              | File _ =>
                  r = Raise NotADirectoryError
                  ∧ w_fs w' = w_fs w
                  ∧ w_trace w' =
                      w_trace w ++ [LogInfo "Create model directory"]
              | Dir =>
                  if bool_decide (d = [])
                  then
                    r = Raise (OSError 22)
                    ∧ w_fs w' = remove_below d (w_fs w)
                    ∧ w_trace w' =
                        w_trace w ++ [LogInfo "Create model directory";
                                      RmTree d]
                  else
                  if existsb
                       (fun q => is_file (remove_tree d (w_fs w) !! q))
                       (proper_prefixes d)
                  then
                    r = Raise NotADirectoryError
                    ∧ w_fs w' = remove_tree d (w_fs w)
                    ∧ w_trace w' =
                        w_trace w ++ [LogInfo "Create model directory";
                                      RmTree d]
                  else
                    r = Ok tt
                    ∧ w_fs w' = make_dirs d (remove_tree d (w_fs w))
                    ∧ w_trace w' =
                        w_trace w ++ [LogInfo "Create model directory";
                                      RmTree d; MakeDirs d]
              end
            else
              r = Raise (ValueError
                   "Model directory already exists (set overwrite flag?):")
              ∧ w_fs w' = w_fs w
              ∧ w_trace w' = w_trace w ++ [LogInfo "Create model directory"]
        | None =>
            if existsb (fun q => is_file (w_fs w !! q)) (proper_prefixes d)
            then
              r = Raise NotADirectoryError
              ∧ w_fs w' = w_fs w
              ∧ w_trace w' = w_trace w ++ [LogInfo "Create model directory"]
            else
              r = Ok tt
              ∧ w_fs w' = make_dirs d (w_fs w)
              ∧ w_trace w' =
                  w_trace w ++ [LogInfo "Create model directory"; MakeDirs d]
        end
    end.
Proof.
  unfold create_modeldir, log_info, rmtree, os_makedirs, emit, get_config,
    os_path_exists, get_fs, put_fs, raise, mbind, M_bind, mret, M_ret. simpl.
  destruct (modeldir (w_config w)) as [d|]; simpl.
  2: { by intros [= <- <-]. }
  destruct (w_fs w !! d) as [x|] eqn:Hd; simpl.
  - destruct (overwrite (w_config w)); simpl.
    2: { by intros [= <- <-]. }
    repeat (rewrite Hd; simpl). destruct x as [|c]; simpl.
    2: { by intros [= <- <-]. }
    case_bool_decide as Hcwd; simpl.
    { intros [= <- <-]. simpl. by rewrite <- app_assoc. }
    assert (remove_tree d (w_fs w) !! d = None) as Hgone.
    { rewrite remove_tree_lookup. by rewrite decide_True. }
    rewrite Hgone. simpl. rewrite Hgone. simpl.
    destruct (existsb _ (proper_prefixes d)); simpl.
    + intros [= <- <-]. simpl. by rewrite <- app_assoc.
    + intros [= <- <-]. simpl. by rewrite <- !app_assoc.
  - destruct (overwrite (w_config w)); simpl; repeat (rewrite Hd; simpl);
      (destruct (existsb _ (proper_prefixes d)); simpl;
       [by intros [= <- <-]|]);
      intros [= <- <-]; simpl; by rewrite <- app_assoc.
Qed.

Lemma existsb_is_file_false fs (l : list path) :
  existsb (fun q => is_file (fs !! q)) l = false <->
  Forall (fun q => is_file (fs !! q) = false) l.
Proof.
  induction l as [|q l IH]; simpl.
  - split; [constructor|done].
  - rewrite Forall_cons, orb_false_iff, IH. tauto.
Qed.

Lemma prefix_proper d q : d `prefix_of` q -> q ≠ d -> d ∈ proper_prefixes q.
Proof.
  intros [k ->] Hne. apply elem_of_proper_prefixes.
  exists (length d). rewrite length_app. split.
  - destruct k; [by rewrite app_nil_r in Hne|simpl; lia].
  - by rewrite take_app_length.
Qed.

Lemma below_not_above d q :
  d `prefix_of` q -> q ≠ d -> q ∉ d :: proper_prefixes d.
Proof.
  intros Hpre Hne [->|Hq]%elem_of_cons; [done|].
  by apply (proper_prefix_not_below d q).
Qed.

(** Without a model directory in the configuration [create_modeldir]
    raises a [ValueError] and touches nothing. *)
Theorem create_modeldir_unset_raises w :
  modeldir (w_config w) = None ->
  exists w',
    create_modeldir w =
      (w', Raise (ValueError "Config `modeldir` has to be set!"))
    ∧ w_fs w' = w_fs w
    ∧ w_config w' = w_config w.
Proof.
  intros Hnone. destruct (create_modeldir w) as [w' r] eqn:Hrun.
  apply create_modeldir_outcomes in Hrun as [Hcfg Hcase].
  rewrite Hnone in Hcase. destruct Hcase as (-> & Hfs & _). by exists w'.
Qed.

(** Where nothing is at the path, and no regular file on the way to it,
    [create_modeldir] makes the directory and the missing ones above it,
    whatever [overwrite] says: nothing is removed and every other path is
    as before. *)
Theorem create_modeldir_makes_missing w d :
  modeldir (w_config w) = Some d ->
  w_fs w !! d = None ->
  Forall (fun q => is_file (w_fs w !! q) = false) (proper_prefixes d) ->
  exists w',
    create_modeldir w = (w', Ok tt)
    ∧ w_fs w' !! d = Some Dir
    ∧ Forall (fun q => w_fs w' !! q = Some Dir) (proper_prefixes d)
    ∧ (forall q, q ∉ d :: proper_prefixes d -> w_fs w' !! q = w_fs w !! q)
    ∧ w_trace w' =
        w_trace w ++ [LogInfo "Create model directory"; MakeDirs d].
Proof.
  intros Hdir Hd Hfiles. destruct (create_modeldir w) as [w' r] eqn:Hrun.
  apply create_modeldir_outcomes in Hrun as [Hcfg Hcase].
  rewrite Hdir, Hd in Hcase.
  apply existsb_is_file_false in Hfiles. rewrite Hfiles in Hcase.
  destruct Hcase as (-> & Hfs & Htr). exists w'. rewrite Hfs.
  split; [done|]. split; [|split; [|split; [|done]]].
  - rewrite make_dirs_lookup, decide_True; [done|apply list_elem_of_here].
  - apply Forall_forall. intros q Hq.
    rewrite make_dirs_lookup, decide_True; [done|].
    by apply list_elem_of_further.
  - intros q Hq. by rewrite make_dirs_lookup, decide_False.
Qed.

(** A regular file is never replaced: with one at the path and
    [overwrite=True], or one on the way to a path that is not there,
    [create_modeldir] raises [NotADirectoryError] and the file system is
    as before. *)
Theorem create_modeldir_regular_file_raises w d :
  modeldir (w_config w) = Some d ->
  (overwrite (w_config w) = true ∧ is_file (w_fs w !! d) = true)
  ∨ (w_fs w !! d = None
     ∧ Exists (fun q => is_file (w_fs w !! q) = true) (proper_prefixes d)) ->
  exists w',
    create_modeldir w = (w', Raise NotADirectoryError)
    ∧ w_fs w' = w_fs w.
Proof.
  intros Hdir Hfile. destruct (create_modeldir w) as [w' r] eqn:Hrun.
  apply create_modeldir_outcomes in Hrun as [Hcfg Hcase].
  rewrite Hdir in Hcase. exists w'.
  destruct Hfile as [[Hov Hfile]|[Hd Hfile]].
  - rewrite Hov in Hcase.
    destruct (w_fs w !! d) as [[|c]|]; try discriminate Hfile.
    by destruct Hcase as (-> & -> & _).
  - rewrite Hd in Hcase.
    destruct (existsb _ (proper_prefixes d)) eqn:Hex.
    + by destruct Hcase as (-> & -> & _).
    + apply existsb_is_file_false in Hex.
      apply Exists_exists in Hfile as (q & Hq & Hfile).
      eapply Forall_forall in Hex; [|done]. congruence.
Qed.


(** In a well-formed file system a normal return of [create_modeldir]
    leaves the model directory as a directory with nothing below it, and
    every path that existed outside it as it was. *)
Theorem create_modeldir_returns_empty_dir w w' :
  fs_well_formed (w_fs w) ->
  create_modeldir w = (w', Ok tt) ->
  exists d,
    modeldir (w_config w) = Some d
    ∧ w_fs w' !! d = Some Dir
    ∧ (forall q, d `prefix_of` q -> q ≠ d -> w_fs w' !! q = None)
    ∧ (forall q, ¬ d `prefix_of` q -> is_Some (w_fs w !! q) ->
         w_fs w' !! q = w_fs w !! q)
    ∧ w_config w' = w_config w.
Proof.
  intros Hwf [Hcfg Hcase]%create_modeldir_outcomes.
  destruct (modeldir (w_config w)) as [d|]; [|by destruct Hcase].
  exists d. split; [done|].
  assert (exists base,
            w_fs w' = make_dirs d base
            ∧ (forall q, d `prefix_of` q -> q ≠ d -> base !! q = None)
            ∧ (forall q, ¬ d `prefix_of` q -> base !! q = w_fs w !! q)
            ∧ Forall (fun q => is_file (base !! q) = false)
                (proper_prefixes d))
    as (base & -> & Hbelow & Hout & Hfiles).
  { destruct (w_fs w !! d) as [x|] eqn:Hd.
    - destruct (overwrite (w_config w)); [|by destruct Hcase].
      destruct x as [|c]; [|by destruct Hcase].
      destruct (bool_decide (d = [])); [by destruct Hcase|].
      destruct (existsb _ (proper_prefixes d)) eqn:Hex;
        [by destruct Hcase|].
      destruct Hcase as (_ & -> & _).
      exists (remove_tree d (w_fs w)). split; [done|].
      split; [|split; [|by apply existsb_is_file_false]].
      + intros q Hpre _. by rewrite remove_tree_lookup, decide_True.
      + intros q Hpre. by rewrite remove_tree_lookup, decide_False.
    - destruct (existsb _ (proper_prefixes d)) eqn:Hex;
        [by destruct Hcase|].
      destruct Hcase as (_ & -> & _).
      exists (w_fs w). split; [done|].
      split; [|split; [done|by apply existsb_is_file_false]].
      intros q Hpre Hne.
      destruct (w_fs w !! q) as [x|] eqn:Hq; [|done].
      assert (w_fs w !! d = Some Dir) as Hdir; [|congruence].
      eapply well_formed_ancestors; [done|by eexists|].
      by apply prefix_proper. }
  split; [|split; [|split; [|done]]].
  - rewrite make_dirs_lookup, decide_True; [done|apply list_elem_of_here].
  - intros q Hpre Hne.
    rewrite make_dirs_lookup, decide_False by by apply below_not_above.
    by apply Hbelow.
  - intros q Hpre [x Hq]. rewrite make_dirs_lookup.
    destruct (decide (q ∈ d :: proper_prefixes d)) as [Hin|]; [|by apply Hout].
    apply elem_of_cons in Hin as [->|Hin]; [by destruct Hpre|].
    eapply Forall_forall in Hfiles; [|done].
    rewrite Hout, Hq in Hfiles by done. rewrite Hq.
    by destruct x.
Qed.

(** [create_modeldir] keeps the file system well-formed, however it
    ends. *)
Theorem create_modeldir_keeps_well_formed w w' r :
  fs_well_formed (w_fs w) ->
  create_modeldir w = (w', r) ->
  fs_well_formed (w_fs w').
Proof.
  intros Hwf [Hcfg Hcase]%create_modeldir_outcomes.
  destruct (modeldir (w_config w)) as [d|].
  2: { by destruct Hcase as (_ & -> & _). }
  destruct (w_fs w !! d) as [x|].
  - destruct (overwrite (w_config w)).
    2: { by destruct Hcase as (_ & -> & _). }
    destruct x as [|c].
    2: { by destruct Hcase as (_ & -> & _). }
    destruct (bool_decide (d = [])).
    { destruct Hcase as (_ & -> & _). by apply remove_below_well_formed. }
    destruct (existsb _ (proper_prefixes d)); destruct Hcase as (_ & -> & _).
    + by apply remove_tree_well_formed.
    + by apply make_dirs_well_formed, remove_tree_well_formed.
  - destruct (existsb _ (proper_prefixes d)); destruct Hcase as (_ & -> & _).
    + done.
    + by apply make_dirs_well_formed.
Qed.

End ModeldirMore.

(** ** The snapshot and the run, step by step *)
Section SnapshotMore.
Context `{torch : Torch tensor scalar} `{lib : !Schnetpack tensor scalar}.
Implicit Types (d q : path) (w : World scalar stat).
Implicit Types (fs : gmap path (node (content scalar stat))).

Lemma removelast_os_path_join d name : removelast (os_path_join d name) = d.
Proof. apply removelast_last. Qed.

(** Every way [save_config] ends. *)
Lemma save_config_outcomes w w' r :
  save_config w = (w', r) ->
  match modeldir (w_config w) with
  | None => r = Raise TypeError ∧ w' = w
  | Some d =>
      let p := os_path_join d "config.yaml" in
      match w_fs w !! d with
      | Some Dir =>
          if is_dir (w_fs w !! p)
          then r = Raise IsADirectoryError ∧ w' = w
          else r = Ok tt
               ∧ w' = mkWorld (w_config w)
                        (<[p := File (Yaml (w_config w))]> (w_fs w))
                        (w_trace w ++ [FileWrite p (Yaml (w_config w))])
      | Some (File _) => r = Raise NotADirectoryError ∧ w' = w
      | None => r = Raise FileNotFoundError ∧ w' = w
      end
  end.
Proof.
  unfold save_config, dump_to, emit, get_config, get_fs, put_fs, raise,
    mbind, M_bind, mret, M_ret. simpl.
  destruct (modeldir (w_config w)) as [d|]; simpl.
  2: { by intros [= <- <-]. }
  rewrite removelast_os_path_join.
  destruct (w_fs w !! d) as [[|c]|]; simpl; try by intros [= <- <-].
  destruct (is_dir (w_fs w !! os_path_join d "config.yaml")); simpl;
    by intros [= <- <-].
Qed.

(** With the model directory in place and no directory in the way,
    [save_config] writes the configuration to [config.yaml] in it,
    replacing what a file of that name held; reading the path back gives
    the configuration. *)
Theorem save_config_writes_snapshot w d :
  modeldir (w_config w) = Some d ->
  w_fs w !! d = Some Dir ->
  is_dir (w_fs w !! os_path_join d "config.yaml") = false ->
  exists w',
    save_config w = (w', Ok tt)
    ∧ w_fs w' = <[os_path_join d "config.yaml" := File (Yaml (w_config w))]>
                  (w_fs w)
    ∧ w_fs w' !! os_path_join d "config.yaml"
        = Some (File (Yaml (w_config w)))
    ∧ w_trace w' =
        w_trace w ++ [FileWrite (os_path_join d "config.yaml")
                        (Yaml (w_config w))]
    ∧ w_config w' = w_config w.
Proof.
  intros Hdir Hd Hp. destruct (save_config w) as [w' r] eqn:Hrun.
  apply save_config_outcomes in Hrun. rewrite Hdir in Hrun. simpl in Hrun.
  rewrite Hd, Hp in Hrun. destruct Hrun as [-> ->]. eexists.
  split; [done|]. simpl. split; [done|]. split; [|done].
  apply lookup_insert_eq.
Qed.

Lemma proper_prefixes_child d name q :
  q ∈ proper_prefixes (os_path_join d name) -> q ∈ d :: proper_prefixes d.
Proof.
  unfold os_path_join.
  intros (n & Hn & ->)%elem_of_proper_prefixes.
  rewrite length_app in Hn. simpl in Hn.
  destruct (decide (n = length d)) as [->|Hne].
  - rewrite take_app_length. apply list_elem_of_here.
  - apply list_elem_of_further, elem_of_proper_prefixes.
    exists n. split; [lia|]. rewrite take_app_le by lia. done.
Qed.

(** [save_config] changes at most [config.yaml] of the model directory:
    the configuration and every other path are as before, a well-formed
    file system stays well-formed, and a call that raises changes nothing
    at all. *)
Theorem save_config_changes_only_snapshot w w' r :
  save_config w = (w', r) ->
  w_config w' = w_config w
  ∧ (forall q,
       modeldir (w_config w) ≠ Some (removelast q)
       ∨ last q ≠ Some "config.yaml" ->
       w_fs w' !! q = w_fs w !! q)
  ∧ (fs_well_formed (w_fs w) -> fs_well_formed (w_fs w'))
  ∧ (r ≠ Ok tt -> w' = w).
Proof.
  intros Hrun%save_config_outcomes.
  destruct (modeldir (w_config w)) as [d|]; [|by destruct Hrun as [-> ->]].
  simpl in Hrun.
  destruct (w_fs w !! d) as [[|c]|] eqn:Hd;
    try by destruct Hrun as [-> ->].
  destruct (is_dir (w_fs w !! os_path_join d "config.yaml")) eqn:Hp;
    destruct Hrun as [-> ->]; [done|]. simpl.
  split; [done|]. split; [|split; [|done]].
  - intros q Hq. apply lookup_insert_ne. intros <-.
    rewrite removelast_os_path_join in Hq. unfold os_path_join in Hq.
    rewrite last_snoc in Hq. by destruct Hq.
  - intros Hwf. apply map_Forall_lookup_2. intros q x Hq.
    apply Forall_forall. intros q' Hq'.
    assert (w_fs w !! q' = Some Dir) as Hdir.
    { destruct (decide (q = os_path_join d "config.yaml")) as [->|Hne].
      - apply proper_prefixes_child in Hq' as [->|Hq']%elem_of_cons; [done|].
        eapply well_formed_ancestors; [done|by eexists|done].
      - rewrite lookup_insert_ne in Hq by done.
        eapply well_formed_ancestors; [done|by eexists|done]. }
    rewrite lookup_insert_ne; [by rewrite Hdir|].
    intros <-. by rewrite Hdir in Hp.
Qed.

(** After [create_modeldir] has returned in a well-formed file system,
    [save_config] cannot fail: the directory is there and holds no
    [config.yaml] yet, and the snapshot of the configuration is written
    into it. *)
Theorem create_modeldir_then_save_config w w1 :
  fs_well_formed (w_fs w) ->
  create_modeldir w = (w1, Ok tt) ->
  exists d w2,
    modeldir (w_config w) = Some d
    ∧ w_fs w1 !! os_path_join d "config.yaml" = None
    ∧ save_config w1 = (w2, Ok tt)
    ∧ w_fs w2 = <[os_path_join d "config.yaml" := File (Yaml (w_config w))]>
                  (w_fs w1)
    ∧ fs_well_formed (w_fs w2).
Proof.
  intros Hwf Hrun.
  pose proof Hrun as [Hcfg Hcase]%create_modeldir_outcomes.
  assert (exists d, modeldir (w_config w) = Some d
                    ∧ w_fs w1 !! d = Some Dir
                    ∧ w_fs w1 !! os_path_join d "config.yaml" = None
                    ∧ fs_well_formed (w_fs w1))
    as (d & Hdir & Hd & Hp & Hwf1).
  { destruct (modeldir (w_config w)) as [d|]; [|by destruct Hcase].
    exists d. split; [done|].
    assert (d `prefix_of` os_path_join d "config.yaml") as Hpre
      by by apply prefix_app_r.
    assert (os_path_join d "config.yaml" ≠ d) as Hne.
    { unfold os_path_join. intros Heq%(f_equal length).
      rewrite length_app in Heq. simpl in Heq. lia. }
    assert (forall base,
              (forall q, d `prefix_of` q -> q ≠ d -> base !! q = None) ->
              make_dirs d base !! d = Some Dir
              ∧ make_dirs d base !! os_path_join d "config.yaml" = None)
      as Hmk.
    { intros base Hbelow. rewrite !make_dirs_lookup. split.
      - rewrite decide_True; [done|apply list_elem_of_here].
      - rewrite decide_False by by apply below_not_above.
        by apply Hbelow. }
    destruct (w_fs w !! d) as [x|] eqn:Hfsd.
    - destruct (overwrite (w_config w)); [|by destruct Hcase].
      destruct x as [|c]; [|by destruct Hcase].
      destruct (bool_decide (d = [])); [by destruct Hcase|].
      destruct (existsb _ (proper_prefixes d)); [by destruct Hcase|].
      destruct Hcase as (_ & -> & _).
      destruct (Hmk (remove_tree d (w_fs w))) as [? ?].
      { intros q ? _. by rewrite remove_tree_lookup, decide_True. }
      repeat split; try done.
      by apply make_dirs_well_formed, remove_tree_well_formed.
    - destruct (existsb _ (proper_prefixes d)); [by destruct Hcase|].
      destruct Hcase as (_ & -> & _).
      destruct (Hmk (w_fs w)) as [? ?].
      { intros q Hq Hqd. destruct (w_fs w !! q) as [x|] eqn:Hfsq; [|done].
        assert (w_fs w !! d = Some Dir); [|congruence].
        eapply well_formed_ancestors; [done|by eexists|].
        by apply prefix_proper. }
      repeat split; try done. by apply make_dirs_well_formed. }
  destruct (save_config w1) as [w2 r] eqn:Hsave.
  pose proof Hsave as Hout%save_config_outcomes.
  rewrite Hcfg, Hdir in Hout. simpl in Hout. rewrite Hd, Hp in Hout.
  simpl in Hout. destruct Hout as [-> Hw2].
  exists d, w2. split; [done|]. split; [done|]. split; [done|].
  split; [by rewrite Hw2|].
  rewrite Hw2. simpl.
  apply map_Forall_lookup_2. intros q x Hq.
  apply Forall_forall. intros q' Hq'.
  assert (w_fs w1 !! q' = Some Dir) as Hq'dir.
  { destruct (decide (q = os_path_join d "config.yaml")) as [->|Hne].
    - apply proper_prefixes_child in Hq' as [->|Hq']%elem_of_cons; [done|].
      eapply well_formed_ancestors; [done|by eexists|done].
    - rewrite lookup_insert_ne in Hq by done.
      eapply well_formed_ancestors; [done|by eexists|done]. }
  rewrite lookup_insert_ne; [by rewrite Hq'dir|].
  intros <-. congruence.
Qed.

End SnapshotMore.

(** ** The train command *)
Section TrainMore.
Context `{torch : Torch tensor scalar} `{lib : !Schnetpack tensor scalar}.
Implicit Types (w : World scalar stat) (c : Config scalar stat).

Lemma same_options_refl c : same_options c c.
Proof. by destruct c. Qed.

Lemma same_options_trans c1 c2 c3 :
  same_options c1 c2 -> same_options c2 c3 -> same_options c1 c3.
Proof.
  unfold same_options. destruct c1, c2, c3. cbn.
  intros H12 H23. injection H12. injection H23. intros. by subst.
Qed.

Lemma keeps_options_bind {A B} (m : M A) (f : A -> M B) :
  keeps_options m -> (forall a, keeps_options (f a)) ->
  keeps_options (m ≫= f).
Proof.
  intros Hm Hf w w' r. rewrite bind_run.
  destruct (m w) as [w1 [a|e]] eqn:Hmw.
  - intros Hfa. eapply same_options_trans; [by eapply Hm|by eapply Hf].
  - intros [= <- <-]. by eapply Hm.
Qed.

Lemma keeps_options_unchanged {A} (m : M A) :
  (forall w w' r, m w = (w', r) -> w_config w' = w_config w) ->
  keeps_options m.
Proof. intros Hm w w' r ->%Hm. apply same_options_refl. Qed.

Lemma keeps_options_run_trainer t dev : keeps_options (run_trainer t dev).
Proof.
  apply keeps_options_unchanged. intros w w' r. unfold run_trainer.
  destruct (trainer_train t dev (w_fs w)). by intros [= <- <-].
Qed.

Lemma keeps_options_save_config : keeps_options save_config.
Proof.
  apply keeps_options_unchanged. intros w w' r Hrun.
  by apply save_config_run in Hrun as [? _].
Qed.

Lemma keeps_options_create_modeldir : keeps_options create_modeldir.
Proof.
  apply keeps_options_unchanged. intros w w' r.
  apply create_modeldir_config.
Qed.

Lemma keeps_options_stats (l : loader) atomrefs pm :
  keeps_options (stats l atomrefs pm).
Proof.
  intros w w' r [[-> _]|[[-> _]|(m & s & -> & _)]]%stats_outcomes; simpl;
    try apply same_options_refl.
  unfold same_options. by destruct (w_config w).
Qed.

Ltac keeps :=
  repeat first
    [ apply keeps_options_create_modeldir
    | apply keeps_options_save_config
    | apply keeps_options_stats
    | apply keeps_options_run_trainer
    | apply keeps_options_bind; [|intros ?]
    | apply keeps_options_unchanged; by intros ? ? ? [= <- <-]
    | match goal with
      | |- keeps_options (match ?x with _ => _ end) => destruct x
      end ].

(** Whatever a run of [train] does and however it ends, it changes no
    option of the configuration but the mean and the stddev. *)
Theorem train_keeps_options w w' r :
  train w = (w', r) ->
  w_config w' =
    set_stddev (stddev (w_config w')) (set_mean (mean (w_config w'))
      (w_config w)).
Proof.
  assert (keeps_options train) as Hkeeps
    by (unfold train, log_info, emit, lift, get_config; keeps).
  apply Hkeeps.
Qed.

(** When the property names are not accepted, [train] raises what
    [get_property_map] raises and has done nothing: no log line, no
    directory made or removed, no file written. *)
Theorem train_unknown_properties w e :
  get_property_map (properties (w_config w)) = Raise e ->
  train w = (w, Raise e).
Proof.
  intros Hpm. unfold train. rewrite bind_run. simpl. rewrite bind_run.
  unfold lift at 1. by rewrite Hpm.
Qed.

(** When [create_modeldir] raises, [train] raises the same and stops
    there: no snapshot is written, no data is loaded, and the world is
    the one [create_modeldir] left. *)
Theorem train_stops_at_create_modeldir w w1 pm e :
  get_property_map (properties (w_config w)) = Ok pm ->
  create_modeldir w = (w1, Raise e) ->
  train w = (w1, Raise e)
  ∧ file_writes (w_trace w1) = file_writes (w_trace w)
  ∧ LogInfo "Load data" ∉ drop (length (w_trace w)) (w_trace w1).
Proof.
  intros Hpm Hrun. split; [|split].
  - unfold train. rewrite bind_run. simpl. rewrite bind_run.
    unfold lift at 1. rewrite Hpm. rewrite bind_run. by rewrite Hrun.
  - by eapply writes_nothing_create_modeldir.
  - apply create_modeldir_outcomes in Hrun as [_ Hcase].
    assert (exists evs, w_trace w1 = w_trace w ++ evs
                        ∧ LogInfo "Load data" ∉ evs) as (evs & -> & Hevs).
    { destruct (modeldir (w_config w)) as [d|].
      2: { destruct Hcase as (_ & _ & ->). eexists. split; [done|].
           by intros [[=]|[]%elem_of_nil]%elem_of_cons. }
      destruct (w_fs w !! d) as [x|].
      - destruct (overwrite (w_config w)).
        + destruct x as [|c].
          * destruct (bool_decide (d = [])).
            { destruct Hcase as (_ & _ & ->). eexists. split; [done|].
              by intros [[=]|[[=]|[]%elem_of_nil]%elem_of_cons]%elem_of_cons. }
            destruct (existsb _ _); [|by destruct Hcase].
            destruct Hcase as (_ & _ & ->). eexists. split; [done|].
            by intros [[=]|[[=]|[]%elem_of_nil]%elem_of_cons]%elem_of_cons.
          * destruct Hcase as (_ & _ & ->). eexists. split; [done|].
            by intros [[=]|[]%elem_of_nil]%elem_of_cons.
        + destruct Hcase as (_ & _ & ->). eexists. split; [done|].
          by intros [[=]|[]%elem_of_nil]%elem_of_cons.
      - destruct (existsb _ _); [|by destruct Hcase].
        destruct Hcase as (_ & _ & ->). eexists. split; [done|].
        by intros [[=]|[]%elem_of_nil]%elem_of_cons. }
    by rewrite drop_app_length.
Qed.

Lemma log_info_run msg w :
  log_info msg w =
    (mkWorld (w_config w) (w_fs w) (w_trace w ++ [LogInfo msg]), Ok tt).
Proof. reflexivity. Qed.

(** A run of [train] that returns has made the model directory (after
    removing the old one, if there was one), then written the snapshot of
    the configuration it started with, and only then loaded the data,
    built the model, set up the trainer and trained: these are all its
    own effects, in this order. *)
Theorem train_order_of_effects w w' :
  train w = (w', Ok tt) ->
  exists d dirs,
    modeldir (w_config w) = Some d
    ∧ (dirs = [MakeDirs d] ∨ dirs = [RmTree d; MakeDirs d])
    ∧ w_trace w' =
        w_trace w ++ [LogInfo "Create model directory"] ++ dirs
        ++ [FileWrite (os_path_join d "config.yaml") (Yaml (w_config w));
            LogInfo "Load data"; LogInfo "Build model";
            LogInfo "Setup training"; LogInfo "Training"].
Proof.
  unfold train. rewrite bind_run. simpl. rewrite bind_run.
  unfold lift at 1.
  destruct (get_property_map (properties (w_config w))) as [pm|];
    simpl; [|done].
  rewrite bind_run.
  destruct (create_modeldir w) as [w1 [[]|]] eqn:Hcreate; [|done].
  apply create_modeldir_outcomes in Hcreate as [Hcfg Hcase].
  assert (exists d dirs,
            modeldir (w_config w) = Some d
            ∧ (dirs = [MakeDirs d] ∨ dirs = [RmTree d; MakeDirs d])
            ∧ w_trace w1 =
                w_trace w ++ [LogInfo "Create model directory"] ++ dirs)
    as (d & dirs & Hdir & Hdirs & Htr1).
  { destruct (modeldir (w_config w)) as [d|]; [|by destruct Hcase].
    exists d. destruct (w_fs w !! d) as [x|].
    - destruct (overwrite (w_config w)); [|by destruct Hcase].
      destruct x as [|c]; [|by destruct Hcase].
      destruct (bool_decide (d = [])); [by destruct Hcase|].
      destruct (existsb _ _); [by destruct Hcase|].
      destruct Hcase as (_ & _ & ->). exists [RmTree d; MakeDirs d]. eauto.
    - destruct (existsb _ _); [by destruct Hcase|].
      destruct Hcase as (_ & _ & ->). exists [MakeDirs d]. eauto. }
  rewrite bind_run.
  destruct (save_config w1) as [w2 [[]|]] eqn:Hsave; [|done].
  apply save_config_outcomes in Hsave.
  rewrite Hcfg, Hdir in Hsave. simpl in Hsave.
  assert (w_trace w2 =
            w_trace w1 ++ [FileWrite (os_path_join d "config.yaml")
                             (Yaml (w_config w))]) as Htr2.
  { destruct (w_fs w1 !! d) as [[|c]|]; try by destruct Hsave.
    destruct (is_dir _); [by destruct Hsave|].
    by destruct Hsave as [_ ->]. }
  clear Hsave.
  rewrite bind_run, log_info_run, bind_run. unfold lift at 1.
  destruct (prepare_data _ _ _ _ _) as [[[[tl vl] tel] ar]|]; [|done].
  rewrite bind_run.
  destruct (stats _ _ _ _) as [w3 [[m s]|]] eqn:Hstats; [|done].
  assert (w_trace w3 = w_trace w2 ++ [LogInfo "Load data"]) as Htr3.
  { by apply stats_outcomes in Hstats
      as [[-> _]|[[-> _]|(? & ? & -> & _)]]. }
  rewrite bind_run, log_info_run, bind_run. unfold lift at 1.
  destruct (build_model _ _ _ _ _ _) as [model0|]; [|done].
  rewrite bind_run, log_info_run, bind_run. unfold lift at 1.
  destruct (setup_trainer _ _ _ _ _ _) as [trainer0|]; [|done].
  rewrite bind_run, log_info_run. unfold run_trainer. simpl.
  destruct (trainer_train _ _ _) as [fs' r']. intros [= <- ->].
  exists d, dirs. split; [done|]. split; [done|]. simpl.
  rewrite Htr3, Htr2, Htr1. by rewrite <- !app_assoc.
Qed.

(** Counts from 1 on reach [create_splits] as they are, and what
    [prepare_data] returns are the three loaders over its splits (the
    training one shuffled, the other two not) with the atomrefs of the
    targets. *)
Theorem prepare_data_absolute_counts pm batch_size num_train num_val
    num_workers (data : dataset) train val test :
  py_ge_1 num_train = true ->
  py_ge_1 num_val = true ->
  get_dataset pm.*2 = Ok data ->
  create_splits data num_train num_val = Ok (train, val, test) ->
  prepare_data pm batch_size num_train num_val num_workers =
    Ok (AtomsLoader train batch_size true num_workers,
        AtomsLoader val batch_size false num_workers,
        AtomsLoader test batch_size false num_workers,
        atomrefs_of data pm).
Proof.
  intros Htrain%py_ge_1_not_lt_1 Hval%py_ge_1_not_lt_1 Hdata Hsplit.
  unfold prepare_data, split_size.
  rewrite Hdata. simpl. rewrite Htrain, Hval. simpl. by rewrite Hsplit.
Qed.

End TrainMore.

(** * The further properties on the small runs *)
Section MoreRuns.
Import Example Cases.

Ltac by_compute := apply (bool_decide_unpack _); vm_compute; exact I.

(** Without the energies in the batch the loss raises on their target,
    after the dipole moment went through. *)
Lemma build_loss_first_missing_key_run :
  build_loss pm0 tradeoff0 batch_no_energy result0
    = Raise (KeyError "qm9_energy").
Proof.
  apply (build_loss_first_missing_key (torch := torch_Q)
           [(Properties.dipole_moment, Some "qm9_dipole_moment");
            (Properties.forces, None)]
           [] Properties.energy "qm9_energy").
  - by_compute.
  - left. reflexivity.
Defined.

Lemma build_loss_ignores_untargeted_run :
  build_loss pm0 tradeoff_forces batch0 result0 =
    build_loss [(Properties.dipole_moment, Some "qm9_dipole_moment");
                (Properties.energy, Some "qm9_energy")]
      tradeoff0 batch0 result0.
Proof.
  apply (build_loss_ignores_untargeted (torch := torch_Q) pm0
           tradeoff_forces tradeoff0).
  intros p Hp. vm_compute in Hp.
  apply elem_of_cons in Hp as [->|Hp]; [reflexivity|].
  apply elem_of_cons in Hp as [->|Hp]; [reflexivity|].
  by apply elem_of_nil in Hp.
Defined.

Lemma stats_changes_only_statistics_run :
  w_fs (stats train_loader0 (atomrefs_of data0 pm0) pm0 world0).1 = fs0
  ∧ w_trace (stats train_loader0 (atomrefs_of data0 pm0) pm0 world0).1 = []
  ∧ modeldir
      (w_config (stats train_loader0 (atomrefs_of data0 pm0) pm0 world0).1)
    = Some ["models"; "debug"].
Proof.
  destruct (stats_changes_only_statistics train_loader0
              (atomrefs_of data0 pm0) pm0 world0 _ _
              (surjective_pairing _)) as (Hfs & Htr & Hcfg).
  split; [exact Hfs|]. split; [exact Htr|]. rewrite Hcfg. reflexivity.
Defined.

(** With targets for the dipole moment and the polarizability only, the
    statistics are empty, also where some were given. *)
Lemma stats_empty_selection_run :
  (stats train_loader0 ∅ pm_excluded world_supplied).2
    = Ok (Some ∅, Some ∅).
Proof.
  rewrite (stats_empty_selection train_loader0 ∅ pm_excluded world_supplied);
    reflexivity.
Defined.

Lemma stats_returns_supplied_run :
  stats train_loader0 (atomrefs_of data0 pm0) pm0 world_supplied =
    (world_supplied,
     Ok (Some (<[Properties.energy := "0.0"]> ∅),
         Some (<[Properties.energy := "1.0"]> ∅))).
Proof.
  apply stats_returns_supplied.
  - by_compute.
  - discriminate.
  - intros p Hp. vm_compute in Hp.
    apply elem_of_cons in Hp as [->|Hp]; [by_compute|].
    by apply elem_of_nil in Hp.
  - reflexivity.
  - reflexivity.
Defined.

(** Two properties selected, the forces' atomref there and the
    energy's not: the energy is the key. *)
Lemma stats_missing_atomref_run :
  statistics_selection pm_two = [Properties.forces; Properties.energy]
  ∧ stats train_loader0 atomrefs_forces pm_two world0
      = (world0, Raise (KeyError Properties.energy)).
Proof.
  destruct (stats_missing_atomref train_loader0 atomrefs_forces pm_two world0
              Properties.energy)
    as (before & q & after & Hsel & Hbefore & Hq & Hnone & Hrun);
    [by_compute|by_compute|reflexivity|].
  split; [reflexivity|].
  assert (q = Properties.energy) as <-; [|exact Hrun].
  vm_compute in Hq.
  apply elem_of_cons in Hq as [->|Hq]; [discriminate Hnone|].
  apply elem_of_cons in Hq as [->|Hq]; [reflexivity|].
  by apply elem_of_nil in Hq.
Defined.

Lemma stats_on_prepared_atomrefs_run :
  exists ts ars,
    stats_targets pm0 = Ok ts
    ∧ stats_atomrefs (atomrefs_of data0 pm0) pm0 = Ok ars
    ∧ length ars = 1%nat.
Proof.
  destruct (stats_on_prepared_atomrefs train_loader0 data0 pm0)
    as (ts & ars & Hts & Hars & _ & Hlen & _); [by_compute|].
  exists ts, ars. split; [exact Hts|]. split; [exact Hars|exact Hlen].
Defined.

Lemma create_modeldir_unset_raises_run :
  exists w',
    create_modeldir world_unset =
      (w', Raise (ValueError "Config `modeldir` has to be set!"))
    ∧ w_fs w' = fs0.
Proof.
  destruct (create_modeldir_unset_raises world_unset) as (w' & Hrun & Hfs & _);
    [reflexivity|].
  exists w'. split; [exact Hrun|exact Hfs].
Defined.



(** [runs] and [runs/first] are made, the earlier run is left alone. *)
Lemma create_modeldir_makes_missing_run :
  exists w',
    create_modeldir world_new = (w', Ok tt)
    ∧ w_fs w' !! ["runs"; "first"] = Some Dir
    ∧ w_fs w' !! ["runs"] = Some Dir
    ∧ w_fs w' !! ["models"; "debug"; "checkpoint"]
        = Some (File (Blob "weights")).
Proof.
  destruct (create_modeldir_makes_missing world_new ["runs"; "first"])
    as (w' & Hrun & Hd & Habove & Hout & _);
    [reflexivity|reflexivity|by_compute|].
  exists w'. split; [exact Hrun|]. split; [exact Hd|]. split.
  - eapply Forall_forall in Habove; [exact Habove|by_compute].
  - rewrite Hout; [reflexivity|by_compute].
Defined.

Lemma create_modeldir_regular_file_raises_run :
  exists w',
    create_modeldir world_file = (w', Raise NotADirectoryError)
    ∧ w_fs w' = fs0.
Proof.
  destruct (create_modeldir_regular_file_raises world_file
              ["models"; "debug"; "checkpoint"]) as (w' & Hrun & Hfs);
    [reflexivity|left; split; reflexivity|].
  exists w'. split; [exact Hrun|exact Hfs].
Defined.

Lemma create_modeldir_returns_empty_dir_run :
  w_fs (create_modeldir world0).1 !! ["models"; "debug"] = Some Dir
  ∧ w_fs (create_modeldir world0).1 !! ["models"; "debug"; "checkpoint"]
      = None.
Proof.
  destruct (create_modeldir_returns_empty_dir world0 (create_modeldir world0).1)
    as (d & Hd & Hdir & Hbelow & _); [by_compute|by vm_compute|].
  injection Hd as <-. split; [exact Hdir|].
  apply Hbelow; [by_compute|discriminate].
Defined.

Lemma create_modeldir_keeps_well_formed_run :
  fs_well_formed (w_fs (create_modeldir world_new).1).
Proof.
  apply (create_modeldir_keeps_well_formed world_new _
           (create_modeldir world_new).2);
    [by_compute|apply surjective_pairing].
Defined.

(** Written into the directory of the earlier run, beside its
    checkpoint. *)
Lemma save_config_writes_snapshot_run :
  exists w',
    save_config world0 = (w', Ok tt)
    ∧ w_fs w' !! ["models"; "debug"; "config.yaml"]
        = Some (File (Yaml config0))
    ∧ w_trace w' = [FileWrite ["models"; "debug"; "config.yaml"]
                      (Yaml config0)].
Proof.
  destruct (save_config_writes_snapshot world0 ["models"; "debug"])
    as (w' & Hrun & _ & Hfile & Htr & _); [reflexivity..|].
  exists w'. split; [exact Hrun|]. split; [exact Hfile|exact Htr].
Defined.

Lemma save_config_changes_only_snapshot_run :
  w_fs (save_config world0).1 !! ["models"; "debug"; "checkpoint"]
    = Some (File (Blob "weights"))
  ∧ fs_well_formed (w_fs (save_config world0).1)
  ∧ (save_config world_unset).1 = world_unset.
Proof.
  destruct (save_config_changes_only_snapshot world0 _ _
              (surjective_pairing _)) as (_ & Hout & Hwf & _).
  destruct (save_config_changes_only_snapshot world_unset _ _
              (surjective_pairing _)) as (_ & _ & _ & Hfail).
  split; [|split].
  - rewrite Hout; [reflexivity|]. right. discriminate.
  - apply Hwf. by_compute.
  - apply Hfail. discriminate.
Defined.

Lemma create_modeldir_then_save_config_run :
  exists d w2,
    modeldir (w_config world_new) = Some d
    ∧ save_config (create_modeldir world_new).1 = (w2, Ok tt)
    ∧ w_fs w2 !! ["runs"; "first"; "config.yaml"]
        = Some (File (Yaml (w_config world_new))).
Proof.
  destruct (create_modeldir_then_save_config world_new
              (create_modeldir world_new).1)
    as (d & w2 & Hd & _ & Hrun & Hfs & _); [by_compute|by vm_compute|].
  exists d, w2. split; [exact Hd|]. split; [exact Hrun|].
  rewrite Hfs. injection Hd as <-. apply lookup_insert_eq.
Defined.

Lemma train_keeps_options_run :
  modeldir (w_config (train world0).1) = Some ["models"; "debug"]
  ∧ overwrite (w_config (train world0).1) = true
  ∧ properties (w_config (train world0).1)
      = [Properties.dipole_moment; Properties.energy].
Proof.
  pose proof (train_keeps_options world0 _ _ (surjective_pairing _)) as Hcfg.
  rewrite Hcfg. repeat split.
Defined.

Lemma train_unknown_properties_run :
  train (lib := strict_schnetpack) world_strict
    = (world_strict, Raise (ValueError "unknown property")).
Proof.
  apply (train_unknown_properties (lib := strict_schnetpack)).
  vm_compute. reflexivity.
Defined.

(** The earlier run is kept: no snapshot, no data loaded. *)
Lemma train_stops_at_create_modeldir_run :
  train world_keep =
    ((create_modeldir world_keep).1,
     Raise (ValueError
              "Model directory already exists (set overwrite flag?):"))
  ∧ file_writes (w_trace (create_modeldir world_keep).1) = [].
Proof.
  destruct (train_stops_at_create_modeldir world_keep
              (create_modeldir world_keep).1
              [(Properties.energy, Some "qm9_energy")]
              (ValueError
                 "Model directory already exists (set overwrite flag?):"))
    as (Hrun & Hwrites & _); [reflexivity|by vm_compute|].
  split; [exact Hrun|exact Hwrites].
Defined.

Lemma train_order_of_effects_run :
  w_trace (train world0).1 =
    [LogInfo "Create model directory"; RmTree ["models"; "debug"];
     MakeDirs ["models"; "debug"];
     FileWrite ["models"; "debug"; "config.yaml"] (Yaml config0);
     LogInfo "Load data"; LogInfo "Build model"; LogInfo "Setup training";
     LogInfo "Training"].
Proof.
  destruct (train_order_of_effects world0 (train world0).1)
    as (d & dirs & Hd & Hdirs & Htr); [by vm_compute|].
  injection Hd as <-.
  destruct Hdirs as [->| ->]; [|rewrite Htr; reflexivity].
  vm_compute in Htr. discriminate Htr.
Defined.

Lemma prepare_data_absolute_counts_run :
  prepare_data pm0 100 (PyInt 8) (PyFloat 1) 2 =
    Ok (PyInt 8 : loader, PyFloat 1 : loader, PyInt 0 : loader,
        atomrefs_of data0 pm0).
Proof.
  apply (prepare_data_absolute_counts (lib := toy_schnetpack) pm0 100
           (PyInt 8) (PyFloat 1) 2 data0 (PyInt 8) (PyFloat 1) (PyInt 0));
    reflexivity.
Defined.

End MoreRuns.
